(** * RPN post-processing (maskrcnn_benchmark/modeling/rpn/inference.py)

    A shallow embedding of [RPNPostProcessor] and of the functions it calls,
    followed by the properties of the proposal-selection pipeline.

    Conventions of the embedding.
    - Floating-point numbers (scores, coordinates, thresholds) are idealised
      as rationals [Q]: no rounding, no NaN.  Python integers are [Z].
    - A Python exception is a [Raise] in the [result] monad.
    - A two-dimensional tensor is a list of rows; the four-dimensional
      network outputs are total functions on their indices together with
      the shape that [objectness.shape] reads.
    - The module imports [BoxCoder], [BoxList], [cat_boxlist],
      [boxlist_nms], [remove_small_boxes] and [permute_and_flatten] from
      files that are not at hand; they are modelled from the
      specification, each under a comment that says so.  [torch.topk],
      [torch.cat], [view], [reshape], [split] and tensor indexing follow
      the documented behaviour of torch, failures included. *)

From Stdlib Require Import QArith Qminmax.
From stdpp Require Import list sorting.

Set Default Proof Using "Type".
Local Open Scope Z_scope.

(** ** Exceptions and the error monad *)

Inductive exn : Type :=
  | RuntimeError   (* raised by torch: bad [k] in topk, empty cat, bad reshape *)
  | IndexError.    (* raised by indexing out of range *)

Inductive result (A : Type) : Type :=
  | Ok (a : A)
  | Raise (e : exn).
Arguments Ok {A} a.
Arguments Raise {A} e.

Definition bind {A B} (m : result A) (f : A → result B) : result B :=
  match m with
  | Ok a => f a
  | Raise e => Raise e
  end.

Notation "'let*' x := m 'in' k" := (bind m (λ x, k))
  (at level 10, x name, m at level 100, k at level 200, only parsing).
Notation "'let*' ' pat := m 'in' k" := (bind m (λ x, match x with pat => k end))
  (at level 10, pat pattern, m at level 100, k at level 200, only parsing).

(** [for x in xs: ys.append(f x)] where [f] may raise. *)
Fixpoint traverse {A B} (f : A → result B) (xs : list A) : result (list B) :=
  match xs with
  | [] => Ok []
  | x :: xs' => let* y := f x in let* ys := traverse f xs' in Ok (y :: ys)
  end.

(** [xs[i]] on a Python list or along one tensor dimension. *)
Definition getitem {A} (xs : list A) (i : nat) : result A :=
  match xs !! i with
  | Some x => Ok x
  | None => Raise IndexError
  end.

(** ** Geometry *)

(** A box in "xyxy" mode: (min-x, min-y, max-x, max-y). *)
Definition Box : Type := Q * Q * Q * Q.
(** A regression delta: the four values of one anchor. *)
Definition Delta : Type := Q * Q * Q * Q.

Definition x1 (b : Box) : Q := b.1.1.1.
Definition y1 (b : Box) : Q := b.1.1.2.
Definition x2 (b : Box) : Q := b.1.2.
Definition y2 (b : Box) : Q := b.2.

(** Modelled from the spec: [BoxCoder] (modeling/box_coder.py) is not part
    of the sources at hand.  It is the injected decode strategy
    [decode(deltas, anchors) -> boxes], which turns each (delta, anchor)
    pair into a box, row by row of its two [M x 4] arguments. *)
Record BoxCoder : Type := mkBoxCoder {
  decode_row : Delta → Box → Box
}.

Definition decode (bc : BoxCoder) (deltas : list Delta) (boxes : list Box)
  : list Box :=
  zip_with (decode_row bc) deltas boxes.

(** ** Tensors *)

(** A four-dimensional tensor: the shape that [t.shape] returns and the
    entry at every index.  Of [box_regression] the source reads the
    entries only, through the shape of [objectness]. *)
Record Tensor4 : Type := mkTensor4 {
  shape : nat * nat * nat * nat;
  at4 : nat → nat → nat → nat → Q
}.

(** An elementwise operation on a tensor of rows. *)
Definition map2d {A B} (f : A → B) (t : list (list A)) : list (list B) :=
  fmap (M:=list) (fmap (M:=list) f) t.

(** Modelled from the spec: [permute_and_flatten] (rpn/utils.py) is not
    part of the sources at hand.  The spec asks for a flat sequence of
    [A*H*W] entries per image, each holding the [C] values of one
    (location, anchor-per-location) pair, in the order of the anchor
    list.  The order chosen here lays the locations out row by row with
    the anchors of one location adjacent, channel [a*C + c] holding value
    [c] of anchor [a]; no property below depends on that choice. *)
Definition permute_and_flatten (layer : Tensor4) (N A C H W : nat)
  : list (list (list Q)) :=
  (λ n,
     h ← seq 0 H; w ← seq 0 W; a ← seq 0 A;
     [ (λ c, at4 layer n (a * C + c)%nat h w) <$> seq 0 C ]) <$> seq 0 N.

(** [t.view(N, -1)] on a tensor of [N] rows of [C]-vectors: the last two
    dimensions are merged.  With [N = 0] the free dimension is ambiguous
    and torch raises. *)
Definition view_N_flat (N : nat) (t : list (list (list Q)))
  : result (list (list Q)) :=
  if decide (N = 0%nat) then Raise RuntimeError else Ok (mjoin (M:=list) <$> t).

(** [t.reshape(N, -1, 4)] / [t.view(N, -1, 4)] on an [M x 4] tensor given
    as a list of [M] rows: [N] groups of [M / N] rows.  torch raises when
    [N = 0] or when [N] does not divide [M]. *)
Definition reshape_rows {A} (N : nat) (rows : list A) : result (list (list A)) :=
  if decide (N = 0%nat) then Raise RuntimeError
  else if decide ((length rows `mod` N)%nat = 0%nat)
       then Ok (reshape (replicate N (length rows `div` N)%nat) rows)
       else Raise RuntimeError.

(** [torch.cat(ts, dim=0)]: raises on an empty list of tensors. *)
Definition torch_cat {A} (ts : list (list A)) : result (list A) :=
  match ts with
  | [] => Raise RuntimeError
  | _ => Ok (mjoin ts)
  end.

(** [t[batch_idx, idx]] with [batch_idx = arange(N)[:, None]]: row [n] of
    the result gathers row [n] of [t] at the indices [idx[n]]. *)
Definition gather_rows {A} (t : list (list A)) (idx : list (list nat))
  : result (list (list A)) :=
  traverse (λ ni, let* row := getitem t ni.1 in traverse (getitem row) ni.2)
           (zip (seq 0 (length idx)) idx).

(** [t[n][i]] on a tensor of rows, when both indices are in range. *)
Definition at2 {A} (t : list (list A)) (n i : nat) : option A :=
  row ← t !! n; row !! i.

(** ** Top-k *)

(** Stable insertion into a list sorted by descending score: the new
    element goes before the first element whose score does not exceed
    its own. *)
Fixpoint insert_desc {A} (x : A * Q) (l : list (A * Q)) : list (A * Q) :=
  match l with
  | [] => [x]
  | y :: l' => if Qle_bool y.2 x.2 then x :: y :: l' else y :: insert_desc x l'
  end.

Definition sort_desc {A} (l : list (A * Q)) : list (A * Q) :=
  foldr insert_desc [] l.

Definition enumerate (xs : list Q) : list (nat * Q) :=
  zip (seq 0 (length xs)) xs.

(** [torch.topk(xs, k, sorted=True)] on a one-dimensional tensor: values
    and indices of the [k] largest entries, in descending order.  torch
    raises when [k] is negative or exceeds the length.  Ties are resolved
    here in favour of the lower index (torch leaves them unspecified). *)
Definition topk (k : Z) (xs : list Q) : result (list Q * list nat) :=
  if decide (k < 0 ∨ Z.of_nat (length xs) < k) then Raise RuntimeError
  else
    let top := take (Z.to_nat k) (sort_desc (enumerate xs)) in
    Ok (top.*2, top.*1).

(** ** Box containers *)

(** Modelled from the spec: [BoxList] (structures/bounding_box.py) is not
    part of the sources at hand.  A [Boxes] is a [BoxList] of which this
    module reads the boxes and the image size only: the anchors of one
    image at one level, or the ground truth of one image once
    [copy_with_fields([])] has dropped its fields. *)
Record Boxes : Type := mkBoxes {
  b_size : Z * Z;          (* (image width, image height) *)
  b_bbox : list Box
}.

(** Modelled from the spec: a [BoxList] in "xyxy" mode carrying the
    per-box field "objectness" is an ordered collection of (box, score)
    pairs valid within an image size. *)
Record BoxList : Type := mkBoxList {
  im_size : Z * Z;
  items : list (Box * Q)
}.

Definition bbox (bl : BoxList) : list Box := (items bl).*1.
Definition get_objectness (bl : BoxList) : list Q := (items bl).*2.
Definition len (bl : BoxList) : nat := length (items bl).

Definition width (b : Box) : Q := (x2 b - x1 b)%Q.
Definition height (b : Box) : Q := (y2 b - y1 b)%Q.
Definition area (b : Box) : Q := (width b * height b)%Q.

Definition clamp (lo hi x : Q) : Q := Qmin (Qmax x lo) hi.

(** Modelled from the spec: [BoxList.clip_to_image] (structures/
    bounding_box.py) is not part of the sources at hand.  Every
    coordinate is clamped to the image's range; with [remove_empty=False]
    no box is dropped. *)
Definition clip_box (sz : Z * Z) (b : Box) : Box :=
  (clamp 0 (inject_Z sz.1) (x1 b), clamp 0 (inject_Z sz.2) (y1 b),
   clamp 0 (inject_Z sz.1) (x2 b), clamp 0 (inject_Z sz.2) (y2 b)).

Definition clip_to_image (bl : BoxList) : BoxList :=
  mkBoxList (im_size bl) (prod_map (clip_box (im_size bl)) id <$> items bl).

Definition big_enough (min_size : Q) (b : Box) : bool :=
  Qle_bool min_size (width b) && Qle_bool min_size (height b).

(** Modelled from the spec: [remove_small_boxes] (structures/
    boxlist_ops.py) is not part of the sources at hand.  A proposal is
    removed when its width or its height is strictly less than
    [min_size]; the others keep their order. *)
Definition remove_small_boxes (bl : BoxList) (min_size : Q) : BoxList :=
  mkBoxList (im_size bl) (filter (λ p, big_enough min_size p.1 = true) (items bl)).

Definition intersection (a b : Box) : Q :=
  (Qmax 0 (Qmin (x2 a) (x2 b) - Qmax (x1 a) (x1 b)) *
   Qmax 0 (Qmin (y2 a) (y2 b) - Qmax (y1 a) (y1 b)))%Q.

(** Intersection over union: overlapping area over the area of the union. *)
Definition iou (a b : Box) : Q :=
  (intersection a b / (area a + area b - intersection a b))%Q.

(** The greedy loop: emit the first (highest-scoring) remaining box,
    discard the remaining boxes whose IoU with it exceeds [t], stop when
    nothing remains or [cap] boxes were emitted.  [fuel] bounds the
    number of rounds by the number of boxes. *)
Fixpoint nms_greedy (fuel cap : nat) (t : Q) (remaining : list (Box * Q))
  : list (Box * Q) :=
  match fuel, cap, remaining with
  | S fuel', S cap', p :: rest =>
      p :: nms_greedy fuel' cap' t
             (filter (λ q, Qle_bool (iou p.1 q.1) t = true) rest)
  | _, _, _ => []
  end.

(** Modelled from the spec: [boxlist_nms] (structures/boxlist_ops.py) is
    not part of the sources at hand.  It returns the largest-score-first
    greedy independent set for threshold [nms_thresh], capped at
    [max_proposals]; the spec is silent on a cap that is not positive,
    which is read here as a cap of zero. *)
Definition boxlist_nms (bl : BoxList) (nms_thresh : Q) (max_proposals : Z)
  : BoxList :=
  mkBoxList (im_size bl)
    (nms_greedy (len bl) (Z.to_nat max_proposals) nms_thresh
       (sort_desc (items bl))).

(** Modelled from the spec: [cat_boxlist] (structures/boxlist_ops.py) is
    not part of the sources at hand.  The proposal sets of one image are
    concatenated in the order given, every proposal keeping its score;
    the image size is that of the first set, so an empty tuple has none
    to offer. *)
Definition cat_boxlist (bls : list BoxList) : result BoxList :=
  match bls with
  | [] => Raise IndexError
  | b :: _ => Ok (mkBoxList (im_size b) (mjoin (items <$> bls)))
  end.

(** [t[mask]] for a boolean mask: the entries of [t] where the mask is
    set, in their original order. *)
Definition mask_select {A} (l : list A) (mask : list bool) : list A :=
  (filter (λ pm, pm.2 = true) (zip l mask)).*1.

(** The number of entries a mask selects. *)
Definition count_true (mask : list bool) : nat :=
  length (filter (λ b, b = true) mask).

(** Modelled from the spec: [BoxList.__getitem__] with a boolean mask
    keeps the image size and the selected proposals in their original
    order. *)
Definition getitem_mask (bl : BoxList) (mask : list bool) : BoxList :=
  mkBoxList (im_size bl) (mask_select (items bl) mask).

(** Modelled from the spec: [BoxList.__getitem__] with an index tensor
    keeps the image size and returns the proposals at [inds], in the order
    of [inds]; an index out of range raises. *)
Definition getitem_inds (bl : BoxList) (inds : list nat) : result BoxList :=
  let* ps := traverse (getitem (items bl)) inds in Ok (mkBoxList (im_size bl) ps).

(** [mask[inds] = 1]. *)
Fixpoint index_put (mask : list bool) (inds : list nat) : result (list bool) :=
  match inds with
  | [] => Ok mask
  | i :: inds' =>
      if decide (i < length mask)%nat then index_put (<[i:=true]> mask) inds'
      else Raise IndexError
  end.

(** [t.split(sizes)]: consecutive pieces of the given sizes, which must
    add up to the length of [t]. *)
Definition torch_split {A} (t : list A) (sizes : list nat) : result (list (list A)) :=
  if decide (sum_list sizes = length t) then Ok (reshape sizes t)
  else Raise RuntimeError.

(** [zip] applied to the unpacked list [xss]: the transpose, cut at the
    shortest row. *)
Fixpoint zip_star {A} (xss : list (list A)) : list (list A) :=
  match xss with
  | [] => []
  | [xs] => (λ x, [x]) <$> xs
  | xs :: xss' => zip_with cons xs (zip_star xss')
  end.

(** ** The post-processor *)

Record RPNPostProcessor : Type := mkRPNPostProcessor {
  pre_nms_top_n : Z;
  post_nms_top_n : Z;
  nms_thresh : Q;
  min_size : Q;
  box_coder : BoxCoder;
  fpn_post_nms_top_n : Z;
  fpn_post_nms_per_batch : bool;
  training : bool            (* the flag of [torch.nn.Module] *)
}.

(** [module.train(mode)] / [module.eval()]. *)
Definition train (mode : bool) (self : RPNPostProcessor) : RPNPostProcessor :=
  mkRPNPostProcessor (pre_nms_top_n self) (post_nms_top_n self)
    (nms_thresh self) (min_size self) (box_coder self)
    (fpn_post_nms_top_n self) (fpn_post_nms_per_batch self) mode.

Definition as_delta (row : list Q) : Delta :=
  match row with
  | [dx; dy; dw; dh] => (dx, dy, dw, dh)
  | _ => (0, 0, 0, 0)%Q
  end.

(** A proposal set followed by the boxes of [target], each with
    objectness 1. *)
Definition with_gt (proposal : BoxList) (target : Boxes) : BoxList :=
  mkBoxList (im_size proposal)
            (items proposal ++ ((λ b, (b, 1%Q)) <$> b_bbox target)).

(** The entries of [config.MODEL.RPN] that [make_rpn_postprocessor]
    reads. *)
Record RPNConfig : Type := mkRPNConfig {
  FPN_POST_NMS_TOP_N_TRAIN : Z;
  FPN_POST_NMS_TOP_N_TEST : Z;
  PRE_NMS_TOP_N_TRAIN : Z;
  PRE_NMS_TOP_N_TEST : Z;
  POST_NMS_TOP_N_TRAIN : Z;
  POST_NMS_TOP_N_TEST : Z;
  FPN_POST_NMS_PER_BATCH : bool;
  NMS_THRESH : Q;
  MIN_SIZE : Q
}.

Section Pipeline.

(** The logistic function of torch and the coder built by
    [BoxCoder(weights=(1.0, 1.0, 1.0, 1.0))]: both involve the
    exponential and stay abstract. *)
Variable sigmoid : Q → Q.
Variable default_box_coder : BoxCoder.

(** [RPNPostProcessor.__init__]: plain assignments, no [raise]; a fresh
    [torch.nn.Module] is in training mode. *)
Definition RPNPostProcessor_init
    (pre_nms_top_n post_nms_top_n : Z) (nms_thresh min_size : Q)
    (box_coder : option BoxCoder) (fpn_post_nms_top_n : option Z)
    (fpn_post_nms_per_batch : bool) : result RPNPostProcessor :=
  let box_coder :=
    match box_coder with None => default_box_coder | Some bc => bc end in
  let fpn_post_nms_top_n :=
    match fpn_post_nms_top_n with
    | None => post_nms_top_n
    | Some n => n
    end in
  Ok (mkRPNPostProcessor pre_nms_top_n post_nms_top_n nms_thresh min_size
        box_coder fpn_post_nms_top_n fpn_post_nms_per_batch true).

(** [add_gt_proposals]. *)
Definition add_gt_proposals (self : RPNPostProcessor)
    (proposals : list BoxList) (targets : list Boxes)
  : result (list BoxList) :=
  let* _ := getitem proposals 0 in     (* proposals[0].bbox.device *)
  let gt_boxes :=
    (λ target, mkBoxList (b_size target) ((λ b, (b, 1%Q)) <$> b_bbox target))
      <$> targets in
  traverse (λ pg, cat_boxlist [pg.1; pg.2]) (zip proposals gt_boxes).

(** The flattened, squashed scores of one level: lines 97 and 99. *)
Definition flat_objectness (objectness : Tensor4) : result (list (list Q)) :=
  let '(N, A, H, W) := shape objectness in
  let* objectness := view_N_flat N (permute_and_flatten objectness N A 1 H W) in
  Ok (map2d sigmoid objectness).

(** The flattened deltas of one level: line 102. *)
Definition flat_box_regression (objectness box_regression : Tensor4)
  : list (list Delta) :=
  let '(N, A, H, W) := shape objectness in
  map2d as_delta (permute_and_flatten box_regression N A 4 H W).

(** Lines 105 to 110: the per-image top-k, values and indices. *)
Definition select_top (self : RPNPostProcessor) (objectness : Tensor4)
  : result (list (list Q * list nat)) :=
  let '(N, A, H, W) := shape objectness in
  let* scores := flat_objectness objectness in
  let num_anchors := Z.of_nat (A * H * W) in
  let pre_nms_top_n := Z.min (pre_nms_top_n self) num_anchors in
  traverse (topk pre_nms_top_n) scores.

(** Lines 91 to 130 of [forward_for_single_feature_map]: the decoded
    boxes ([N] rows), the scores of the selected anchors and the image
    sizes. *)
Definition decode_top (self : RPNPostProcessor) (anchors : list Boxes)
    (objectness box_regression : Tensor4)
  : result (list (list Box) * list (list Q) * list (Z * Z)) :=
  let N := (shape objectness).1.1.1 in
  let* tk := select_top self objectness in
  let objectness' := tk.*1 in
  let topk_idx := tk.*2 in
  let* box_regression := gather_rows (flat_box_regression objectness box_regression)
                                topk_idx in
  let image_shapes := b_size <$> anchors in
  let* concat_anchors := torch_cat (b_bbox <$> anchors) in
  let* concat_anchors := reshape_rows N concat_anchors in
  let* concat_anchors := gather_rows concat_anchors topk_idx in
  let proposals :=
    decode (box_coder self) (mjoin box_regression) (mjoin concat_anchors) in
  let* proposals := reshape_rows N proposals in
  Ok (proposals, objectness', image_shapes).

(** The body of the loop of lines 133 to 146, up to the clipping. *)
Definition clipped (proposal : list Box) (score : list Q) (im_shape : Z * Z)
  : BoxList :=
  clip_to_image (mkBoxList im_shape (zip proposal score)).

(** The whole body of the loop. *)
Definition per_image (self : RPNPostProcessor)
    (proposal : list Box) (score : list Q) (im_shape : Z * Z) : BoxList :=
  let boxlist := clipped proposal score im_shape in
  let boxlist := remove_small_boxes boxlist (min_size self) in
  boxlist_nms boxlist (nms_thresh self) (post_nms_top_n self).

(** [forward_for_single_feature_map]. *)
Definition forward_for_single_feature_map (self : RPNPostProcessor)
    (anchors : list Boxes) (objectness box_regression : Tensor4)
  : result (list BoxList) :=
  let* '(proposals, objectness, image_shapes) :=
    decode_top self anchors objectness box_regression in
  Ok (zip_with (λ ps im_shape, per_image self ps.1 ps.2 im_shape)
        (zip proposals objectness) image_shapes).

(** One round of the loop of lines 207 to 213 of
    [select_over_all_levels]: the new value of [boxlists[i]]. *)
Definition select_image (self : RPNPostProcessor) (boxlist : BoxList)
  : result BoxList :=
  let objectness := get_objectness boxlist in
  let post_nms_top_n :=
    Z.min (fpn_post_nms_top_n self) (Z.of_nat (length objectness)) in
  let* vi := topk post_nms_top_n objectness in
  let inds_sorted := vi.2 in
  getitem_inds boxlist inds_sorted.

(** [select_over_all_levels]. *)
Definition select_over_all_levels (self : RPNPostProcessor)
    (boxlists : list BoxList) : result (list BoxList) :=
  if training self && fpn_post_nms_per_batch self then
    let* objectness := torch_cat (get_objectness <$> boxlists) in
    let box_sizes := len <$> boxlists in
    let post_nms_top_n :=
      Z.min (fpn_post_nms_top_n self) (Z.of_nat (length objectness)) in
    let* vi := topk post_nms_top_n objectness in
    let inds_sorted := vi.2 in
    let* inds_mask := index_put (replicate (length objectness) false) inds_sorted in
    let* inds_mask := torch_split inds_mask box_sizes in
    Ok (zip_with getitem_mask boxlists inds_mask)
  else
    traverse (select_image self) boxlists.

(** [forward]. *)
Definition forward (self : RPNPostProcessor) (anchors : list (list Boxes))
    (objectness box_regression : list Tensor4) (targets : option (list Boxes))
  : result (list BoxList) :=
  let num_levels := length objectness in
  let anchors := zip_star anchors in
  let* sampled_boxes :=
    traverse (λ aob, forward_for_single_feature_map self aob.1.1 aob.1.2 aob.2)
             (zip (zip anchors objectness) box_regression) in
  let* boxlists := traverse cat_boxlist (zip_star sampled_boxes) in
  let* boxlists :=
    (if decide (1 < num_levels)%nat then select_over_all_levels self boxlists
     else Ok boxlists) in
  match training self, targets with
  | true, Some targets => add_gt_proposals self boxlists targets
  | _, _ => Ok boxlists
  end.

(** [make_rpn_postprocessor]. *)
Definition make_rpn_postprocessor (config : RPNConfig)
    (rpn_box_coder : option BoxCoder) (is_train : bool)
  : result RPNPostProcessor :=
  let fpn_post_nms_top_n := FPN_POST_NMS_TOP_N_TRAIN config in
  let fpn_post_nms_top_n :=
    if negb is_train then FPN_POST_NMS_TOP_N_TEST config
    else fpn_post_nms_top_n in
  let pre_nms_top_n := PRE_NMS_TOP_N_TRAIN config in
  let post_nms_top_n := POST_NMS_TOP_N_TRAIN config in
  let '(pre_nms_top_n, post_nms_top_n) :=
    if negb is_train
    then (PRE_NMS_TOP_N_TEST config, POST_NMS_TOP_N_TEST config)
    else (pre_nms_top_n, post_nms_top_n) in
  let fpn_post_nms_per_batch := FPN_POST_NMS_PER_BATCH config in
  let nms_thresh := NMS_THRESH config in
  let min_size := MIN_SIZE config in
  RPNPostProcessor_init pre_nms_top_n post_nms_top_n nms_thresh min_size
    rpn_box_coder (Some fpn_post_nms_top_n) fpn_post_nms_per_batch.

End Pipeline.

(** ** Predicates used in the statements *)

(** Descending order of score. *)
Definition desc {A} : relation (A * Q) := λ a b, (b.2 <= a.2)%Q.

(** The contract of a top-k selection: [vi] holds the values and the
    indices of [k] distinct entries of [xs], in descending order of value,
    and no entry left out exceeds an entry taken. *)
Definition is_topk (k : nat) (xs : list Q) (vi : list Q * list nat) : Prop :=
  length vi.2 = k ∧
  Forall2 (λ i v, xs !! i = Some v) vi.2 vi.1 ∧
  NoDup vi.2 ∧
  (∀ i j si sj, i ∈ vi.2 → j ∉ vi.2 →
     xs !! i = Some si → xs !! j = Some sj → (sj <= si)%Q) ∧
  StronglySorted (λ a b, (b <= a)%Q) vi.1.

(** A box lies within an image of the given size. *)
Definition in_image (sz : Z * Z) (b : Box) : Prop :=
  (0 <= x1 b <= inject_Z sz.1)%Q ∧ (0 <= y1 b <= inject_Z sz.2)%Q ∧
  (0 <= x2 b <= inject_Z sz.1)%Q ∧ (0 <= y2 b <= inject_Z sz.2)%Q.

(** The input contract of one level: [N] images, [A*H*W] anchors each. *)
Definition level_contract (anchors : list Boxes) (objectness : Tensor4)
    (N A H W : nat) : Prop :=
  shape objectness = (N, A, H, W) ∧ N ≠ 0%nat ∧ length anchors = N ∧
  Forall (λ a, length (b_bbox a) = (A * H * W)%nat) anchors.

(** ** Inputs of the worked examples *)

(** A tensor given by nested lists, read as zero outside of them. *)
Definition tensor_of_lists (N A H W : nat) (d : list (list (list (list Q))))
  : Tensor4 :=
  mkTensor4 (N, A, H, W)
    (λ n c h w, default 0%Q (r1 ← d !! n; r2 ← r1 !! c; r3 ← r2 !! h; r3 !! w)).

(** The examples give their scores already squashed and decode by adding
    the delta to the anchor. *)
Definition ex_sigmoid : Q → Q := id.
Definition ex_coder : BoxCoder :=
  mkBoxCoder (λ (d : Delta) (a : Box),
                (x1 a + d.1.1.1, y1 a + d.1.1.2, x2 a + d.1.2, y2 a + d.2)%Q).

(** A 10 by 10 square with its corner at [(x, y)]. *)
Definition square (x y : Z) : Box :=
  (inject_Z x, inject_Z y, inject_Z (x + 10), inject_Z (y + 10)).

(** The scenario of the specification: two images, two levels,
    [pre_nms_top_n = 4], [post_nms_top_n = 2], [nms_thresh = 0.7],
    [min_size = 0], [fpn_post_nms_top_n = 3], per-image final mode. *)
Definition ex_self : RPNPostProcessor :=
  mkRPNPostProcessor 4 2 0.7 0 ex_coder 3 false true.
Definition ex_anchors1 : Boxes :=
  mkBoxes (100, 100) [square 0 0; square 20 0; square 40 0; square 60 0].
Definition ex_anchors2 : Boxes :=
  mkBoxes (100, 100) [square 0 50; square 50 50].
Definition ex_objectness1 : Tensor4 :=
  tensor_of_lists 2 1 1 4 [[[[0.9; 0.8; 0.3; 0.1]]]; [[[0.2; 0.8; 0.3; 0.1]]]]%Q.
Definition ex_objectness2 : Tensor4 :=
  tensor_of_lists 2 1 1 2 [[[[0.95; 0.2]]]; [[[0.2; 0.8]]]]%Q.
Definition ex_regression : Tensor4 := tensor_of_lists 2 4 1 4 [].
Definition ex_anchors : list (list Boxes) :=
  [[ex_anchors1; ex_anchors2]; [ex_anchors1; ex_anchors2]].
Definition ex_targets : list Boxes :=
  [mkBoxes (100, 100) [(1, 1, 3, 3)%Q]; mkBoxes (100, 100) []].

(** The same post-processor in per-batch mode with a minimum size of 5. *)
Definition ex_self_batch : RPNPostProcessor :=
  mkRPNPostProcessor 4 2 0.7 5 ex_coder 3 true true.

(** What the scenario selects, before any injection. *)
Definition ex_selected : list BoxList :=
  Eval vm_compute in
    match forward ex_sigmoid ex_self ex_anchors
            [ex_objectness1; ex_objectness2] [ex_regression; ex_regression] None
    with Ok l => l | Raise _ => [] end.

(** One level whose only anchor lies to the right of a 100 by 100 image:
    clipping squeezes it onto the border [x = 100]. *)
Definition ex_outside : Boxes := mkBoxes (100, 100) [square 200 10].
Definition ex_objectness_one : Tensor4 := tensor_of_lists 1 1 1 1 [[[[0.9]]]]%Q.
Definition ex_regression_one : Tensor4 := tensor_of_lists 1 4 1 1 [].

(** The limits that the comments of [make_rpn_postprocessor] quote for
    training, smaller ones for testing. *)
Definition ex_config : RPNConfig :=
  mkRPNConfig 2000 2 2000 1000 2000 1000 true 0.7 0.

(** Anchors of two images with three and five boxes, eight in all. *)
Definition ex_uneven : list Boxes :=
  [mkBoxes (100, 100) [square 0 0; square 20 0; square 40 0];
   mkBoxes (100, 100) [square 60 0; square 0 50; square 20 50; square 40 50;
                       square 60 50]].

(** A post-processor with a negative limit for the final selection. *)
Definition ex_self_negative : RPNPostProcessor :=
  mkRPNPostProcessor 4 2 0.7 0 ex_coder (-1) false true.

(** * Auxiliary facts *)

(** ** The error monad *)

Lemma bind_Ok {A B} (m : result A) (k : A → result B) (b : B) :
  bind m k = Ok b ↔ ∃ a, m = Ok a ∧ k a = Ok b.
Proof.
  destruct m as [a|e]; simpl.
  - split; [eauto | intros (a' & [= <-] & ?); done].
  - split; [done | intros (a' & ? & ?); done].
Qed.

Lemma traverse_Ok {A B} (f : A → result B) (xs : list A) (ys : list B) :
  traverse f xs = Ok ys ↔ Forall2 (λ x y, f x = Ok y) xs ys.
Proof.
  revert ys. induction xs as [|x xs IH]; intros ys; simpl.
  - split; [intros [= <-]; constructor | by inversion 1].
  - rewrite bind_Ok. split.
    + intros (y & Hy & Hr). apply bind_Ok in Hr as (ys' & Hys & [= <-]).
      constructor; [done | by apply IH].
    + inversion 1 as [|? y ? ys' Hy Hys]; subst. exists y. split; [done|].
      apply bind_Ok. exists ys'. split; [by apply IH | done].
Qed.

Lemma traverse_total {A B} (f : A → result B) (xs : list A) :
  Forall (λ x, ∃ y, f x = Ok y) xs → ∃ ys, traverse f xs = Ok ys.
Proof.
  induction 1 as [|x xs [y Hy] _ [ys Hys]]; simpl; [by eexists|].
  exists (y :: ys). by rewrite Hy, Hys.
Qed.

Lemma traverse_length {A B} (f : A → result B) (xs : list A) (ys : list B) :
  traverse f xs = Ok ys → length ys = length xs.
Proof. rewrite traverse_Ok. intros H. symmetry. by eapply Forall2_length. Qed.

Lemma getitem_Ok {A} (xs : list A) (i : nat) (x : A) :
  getitem xs i = Ok x ↔ xs !! i = Some x.
Proof. unfold getitem. destruct (xs !! i); split; congruence. Qed.

Lemma traverse_getitem {A} (xs : list A) (inds : list nat) :
  Forall (λ i, (i < length xs)%nat) inds →
  ∃ ys, traverse (getitem xs) inds = Ok ys.
Proof.
  intros H. apply traverse_total. eapply Forall_impl; [done|].
  intros i Hi; simpl in Hi. apply lookup_lt_is_Some_2 in Hi as [x Hx].
  exists x. by apply getitem_Ok.
Qed.

(** ** Sorting by descending score and top-k *)

Lemma insert_desc_perm {A} (x : A * Q) (l : list (A * Q)) :
  insert_desc x l ≡ₚ x :: l.
Proof.
  induction l as [|y l IH]; simpl; [done|].
  destruct (Qle_bool y.2 x.2); [done|]. rewrite IH. apply Permutation_swap.
Qed.

Lemma sort_desc_perm {A} (l : list (A * Q)) : sort_desc l ≡ₚ l.
Proof.
  induction l as [|x l IH]; simpl; [done|].
  unfold sort_desc in *; simpl. by rewrite insert_desc_perm, IH.
Qed.

Lemma insert_desc_sorted {A} (x : A * Q) (l : list (A * Q)) :
  StronglySorted desc l → StronglySorted desc (insert_desc x l).
Proof.
  induction 1 as [|y l Hl IH Hy]; simpl.
  - repeat constructor.
  - destruct (Qle_bool y.2 x.2) eqn:E.
    + apply Qle_bool_iff in E. constructor; [by constructor|].
      constructor; [done|]. eapply Forall_impl; [exact Hy|].
      intros z Hz. unfold desc in *. by apply Qle_trans with y.2.
    + constructor; [done|]. rewrite insert_desc_perm. constructor; [|done].
      unfold desc. apply Qlt_le_weak, Qnot_le_lt. intros Hle.
      apply Qle_bool_iff in Hle. congruence.
Qed.

Lemma sort_desc_sorted {A} (l : list (A * Q)) : StronglySorted desc (sort_desc l).
Proof.
  induction l as [|x l IH]; [constructor|]. by apply insert_desc_sorted.
Qed.

Lemma enumerate_fst (xs : list Q) : (enumerate xs).*1 = seq 0 (length xs).
Proof. unfold enumerate. apply fst_zip. by rewrite length_seq. Qed.

Lemma elem_of_enumerate (xs : list Q) (i : nat) (v : Q) :
  (i, v) ∈ enumerate xs ↔ xs !! i = Some v.
Proof.
  unfold enumerate. rewrite list_elem_of_lookup. split.
  - intros (j & Hj). apply lookup_zip_with_Some in Hj as (a & b & [= -> ->] & Ha & Hb).
    apply lookup_seq in Ha as [-> _]. done.
  - intros Hi. exists i. apply lookup_zip_with_Some. exists i, v.
    split; [done|]. split; [|done]. apply lookup_seq.
    split; [done|]. by eapply lookup_lt_Some.
Qed.

Lemma Forall2_fmap_diag {A B C} (P : B → C → Prop) (f : A → B) (g : A → C)
    (l : list A) :
  Forall (λ x, P (f x) (g x)) l → Forall2 P (f <$> l) (g <$> l).
Proof. induction 1; simpl; by constructor. Qed.

Lemma elem_of_take_1 {A} (x : A) (n : nat) (l : list A) : x ∈ take n l → x ∈ l.
Proof. rewrite elem_of_take. intros (i & Hi & _). by eapply list_elem_of_lookup_2. Qed.

(** What [topk] returns whenever [k] is in range. *)
Lemma topk_Ok (k : Z) (xs : list Q) :
  0 ≤ k ≤ Z.of_nat (length xs) →
  ∃ vi, topk k xs = Ok vi ∧ is_topk (Z.to_nat k) xs vi.
Proof.
  intros Hk. unfold topk. rewrite decide_False by lia.
  set (s := sort_desc (enumerate xs)).
  assert (Hperm : s ≡ₚ enumerate xs) by apply sort_desc_perm.
  assert (Hsorted : StronglySorted desc s) by apply sort_desc_sorted.
  assert (Hlen : length s = length xs).
  { rewrite Hperm. unfold enumerate. rewrite length_zip, length_seq. lia. }
  assert (Hin : ∀ i v, (i, v) ∈ s ↔ xs !! i = Some v).
  { intros i v. rewrite Hperm. apply elem_of_enumerate. }
  eexists. split; [done|]. unfold is_topk; simpl. repeat split.
  - rewrite length_fmap, length_take. lia.
  - apply Forall2_fmap_diag, Forall_forall. intros [i v] Hiv; simpl.
    apply Hin. by eapply elem_of_take_1.
  - rewrite fmap_take. apply (sublist_NoDup _ (s.*1)); [|apply sublist_take].
    rewrite Hperm, enumerate_fst. apply NoDup_seq.
  - intros i j vi vj Hi Hj Hxi Hxj.
    apply list_elem_of_fmap in Hi as ([i' vi'] & -> & Hi); simpl in *.
    assert (vi' = vi) as ->.
    { pose proof (elem_of_take_1 _ _ _ Hi) as Hi'. apply Hin in Hi'. congruence. }
    apply Hin in Hxj. rewrite <-(take_drop (Z.to_nat k) s) in Hxj, Hsorted.
    apply elem_of_app in Hxj as [Hxj|Hxj].
    { destruct Hj. apply list_elem_of_fmap. by exists (j, vj). }
    by apply (StronglySorted_app_1_elem_of _ _ _ _ _ Hsorted Hi Hxj).
  - apply (StronglySorted_fmap snd desc); [by intros ??|].
    rewrite <-(take_drop (Z.to_nat k) s) in Hsorted.
    by eapply StronglySorted_app_1_l.
Qed.

Lemma is_topk_lt (k : nat) (xs : list Q) (vi : list Q * list nat) :
  is_topk k xs vi → Forall (λ i, (i < length xs)%nat) vi.2.
Proof.
  intros (_ & H & _). apply Forall_forall. intros i Hi.
  apply list_elem_of_lookup in Hi as [j Hj].
  destruct (Forall2_lookup_l _ _ _ _ _ H Hj) as (v & _ & Hv).
  by eapply lookup_lt_Some.
Qed.

Lemma is_topk_length_values (k : nat) (xs : list Q) (vi : list Q * list nat) :
  is_topk k xs vi → length vi.1 = k.
Proof. intros (<- & H & _). symmetry. by eapply Forall2_length. Qed.

(** ** Flattening, reshaping and gathering *)

Lemma length_bind_const {A B} (f : A → list B) (n : nat) (l : list A) :
  (∀ x, length (f x) = n) → length (l ≫= f) = (length l * n)%nat.
Proof.
  intros Hf. induction l as [|x l IH]; [done|].
  rewrite bind_cons, length_app, Hf, IH. simpl. lia.
Qed.

Lemma permute_and_flatten_shape (layer : Tensor4) (N A C H W : nat) :
  length (permute_and_flatten layer N A C H W) = N ∧
  Forall (λ row, length row = (A * H * W)%nat ∧ Forall (λ v, length v = C) row)
         (permute_and_flatten layer N A C H W).
Proof.
  unfold permute_and_flatten. split; [by rewrite length_fmap, length_seq|].
  apply Forall_fmap, Forall_forall. intros n _; simpl. split.
  - rewrite (length_bind_const _ (W * A)), length_seq; [lia|].
    intros h. rewrite (length_bind_const _ A), length_seq; [lia|].
    intros w. rewrite (length_bind_const _ 1), length_seq; [lia|done].
  - apply Forall_forall. intros v Hv.
    apply list_elem_of_bind in Hv as (h & Hv & _).
    apply list_elem_of_bind in Hv as (w & Hv & _).
    apply list_elem_of_bind in Hv as (a & Hv & _).
    apply list_elem_of_singleton in Hv as ->.
    by rewrite length_fmap, length_seq.
Qed.

Lemma reshape_replicate_join {A} (M : nat) (rows : list (list A)) :
  Forall (λ r, length r = M) rows →
  reshape (replicate (length rows) M) (mjoin rows) = rows.
Proof.
  induction 1 as [|r rows Hr _ IH]; simpl; [done|].
  rewrite take_app_length' , drop_app_length' by done. by rewrite IH.
Qed.

Lemma reshape_rows_join {A} (N M : nat) (rows : list (list A)) :
  length rows = N → N ≠ 0%nat → Forall (λ r, length r = M) rows →
  reshape_rows N (mjoin rows) = Ok rows.
Proof.
  intros HN HN0 Hrows. unfold reshape_rows.
  assert (Hlen : length (mjoin rows) = (N * M)%nat).
  { rewrite length_join, (sum_list_fmap_same M) by done. lia. }
  rewrite decide_False by done. rewrite Hlen.
  rewrite decide_True by (rewrite Nat.mul_comm; by apply Nat.Div0.mod_mul).
  rewrite (Nat.mul_comm N M), Nat.div_mul by done.
  by rewrite <-HN, reshape_replicate_join.
Qed.

Lemma zip_with_join {A B C} (f : A → B → C) (a : list (list A)) (b : list (list B)) :
  Forall2 (λ x y, length x = length y) a b →
  zip_with f (mjoin a) (mjoin b) = mjoin (zip_with (zip_with f) a b).
Proof.
  induction 1 as [|x y a b Hxy _ IH]; simpl; [done|].
  by rewrite zip_with_app, IH.
Qed.

Lemma lookup_zip_seq {A} (l : list A) (n : nat) (x : A) :
  zip (seq 0 (length l)) l !! n = Some (n, x) ↔ l !! n = Some x.
Proof.
  rewrite lookup_zip_with_Some. split.
  - intros (a & b & [= <- <-] & _ & ?). done.
  - intros Hn. exists n, x. split; [done|]. split; [|done].
    apply lookup_seq. split; [done|]. by eapply lookup_lt_Some.
Qed.

Lemma elem_of_zip_seq {A} (l : list A) (n : nat) (x : A) :
  (n, x) ∈ zip (seq 0 (length l)) l → l !! n = Some x.
Proof.
  intros (j & Hj)%list_elem_of_lookup.
  apply lookup_zip_with_Some in Hj as (a & b & [= -> ->] & Ha & Hb).
  apply lookup_seq in Ha as [-> _]. done.
Qed.

Lemma gather_rows_Ok {A} (t : list (list A)) (idx : list (list nat))
    (g : list (list A)) :
  gather_rows t idx = Ok g →
  length g = length idx ∧
  ∀ n inds, idx !! n = Some inds →
    ∃ row grow, t !! n = Some row ∧ g !! n = Some grow ∧
                Forall2 (λ i y, row !! i = Some y) inds grow.
Proof.
  unfold gather_rows. intros Hg. split.
  { apply traverse_length in Hg. rewrite Hg, length_zip, length_seq. lia. }
  apply traverse_Ok in Hg. intros n inds Hn.
  apply lookup_zip_seq in Hn.
  destruct (Forall2_lookup_l _ _ _ _ _ Hg Hn) as (grow & Hgrow & Hb).
  simpl in Hb. apply bind_Ok in Hb as (row & Hrow & Hb).
  apply getitem_Ok in Hrow. exists row, grow. repeat split; [done..|].
  apply traverse_Ok in Hb. eapply Forall2_impl; [exact Hb|].
  intros i y. apply getitem_Ok.
Qed.

Lemma gather_rows_total {A} (t : list (list A)) (idx : list (list nat)) :
  (∀ n inds, idx !! n = Some inds →
     ∃ row, t !! n = Some row ∧ Forall (λ i, (i < length row)%nat) inds) →
  ∃ g, gather_rows t idx = Ok g.
Proof.
  intros H. apply traverse_total, Forall_forall. intros [n inds] Hn; simpl.
  apply elem_of_zip_seq in Hn. destruct (H _ _ Hn) as (row & Hrow & Hin).
  destruct (traverse_getitem row inds Hin) as [ys Hys].
  exists ys. apply bind_Ok. exists row. split; [by apply getitem_Ok|done].
Qed.

Lemma gather_rows_lengths {A} (t : list (list A)) (idx : list (list nat))
    (g : list (list A)) :
  gather_rows t idx = Ok g → Forall2 (λ inds grow, length grow = length inds) idx g.
Proof.
  intros [Hlen Hg]%gather_rows_Ok. apply Forall2_same_length_lookup.
  split; [done|]. intros n inds grow Hinds Hgrow.
  destruct (Hg _ _ Hinds) as (row & grow' & _ & Hgrow' & HF).
  assert (grow' = grow) as -> by congruence. symmetry. by eapply Forall2_length.
Qed.

(** ** Masks *)

Lemma mask_select_nil_r {A} (l : list A) : mask_select l [] = [].
Proof. by destruct l. Qed.

Lemma mask_select_cons {A} (x : A) (l : list A) (b : bool) (mask : list bool) :
  mask_select (x :: l) (b :: mask)
  = if b then x :: mask_select l mask else mask_select l mask.
Proof.
  unfold mask_select. simpl. rewrite filter_cons. simpl.
  destruct b; [by rewrite decide_True | by rewrite decide_False].
Qed.

Lemma mask_select_sublist {A} (l : list A) (mask : list bool) :
  mask_select l mask `sublist_of` l.
Proof.
  revert mask. induction l as [|x l IH]; intros [|b mask];
    rewrite ?mask_select_nil_r; try apply sublist_nil_l.
  rewrite mask_select_cons. destruct b; [by apply sublist_skip|].
  by apply sublist_cons.
Qed.

Lemma mask_select_length {A} (l : list A) (mask : list bool) :
  length l = length mask → length (mask_select l mask) = count_true mask.
Proof.
  revert mask. induction l as [|x l IH]; intros [|b mask] Hlen;
    simplify_eq/=; [done|].
  rewrite mask_select_cons. unfold count_true. rewrite filter_cons.
  destruct b.
  - rewrite decide_True by done. simpl. f_equal. by apply IH.
  - rewrite decide_False by done. by apply IH.
Qed.

Lemma mask_select_app {A} (l1 l2 : list A) (m1 m2 : list bool) :
  length l1 = length m1 →
  mask_select (l1 ++ l2) (m1 ++ m2) = mask_select l1 m1 ++ mask_select l2 m2.
Proof.
  intros Hlen. unfold mask_select.
  rewrite (zip_with_app pair l1 l2 m1 m2 Hlen). by rewrite filter_app, fmap_app.
Qed.

(** Selecting with the pieces of a mask, piece by piece, selects with the
    whole mask on the concatenation. *)
Lemma mask_select_reshape {A} (ls : list (list A)) (mask : list bool) :
  length mask = sum_list (length <$> ls) →
  mjoin (zip_with mask_select ls (reshape (length <$> ls) mask))
  = mask_select (mjoin ls) mask.
Proof.
  revert mask. induction ls as [|l ls IH]; intros mask Hlen; simpl in *.
  - done.
  - change (list_fmap (list A) nat length ls) with (length <$> ls) in *.
    rewrite <-(take_drop (length l) mask) at 3.
    rewrite mask_select_app by (rewrite length_take; lia).
    rewrite IH; [done|]. rewrite length_drop. lia.
Qed.

Lemma count_true_insert (mask : list bool) (i : nat) :
  mask !! i = Some false →
  count_true (<[i:=true]> mask) = S (count_true mask).
Proof.
  intros Hi. unfold count_true.
  rewrite insert_take_drop by (by eapply lookup_lt_Some).
  rewrite <-(take_drop_middle mask i false) at 3 by done.
  rewrite !filter_app, !filter_cons, !length_app.
  rewrite decide_True, decide_False by done. simpl. lia.
Qed.

Lemma count_true_replicate (n : nat) : count_true (replicate n false) = 0%nat.
Proof.
  unfold count_true. induction n as [|n IH]; simpl; [done|].
  rewrite filter_cons. by rewrite decide_False.
Qed.

(** [mask[inds] = 1] on distinct indices in range that are still unset:
    exactly these are set in addition. *)
Lemma index_put_Ok (mask : list bool) (inds : list nat) :
  NoDup inds → Forall (λ i, mask !! i = Some false) inds →
  ∃ mask', index_put mask inds = Ok mask' ∧
           length mask' = length mask ∧
           (∀ i, mask' !! i = Some true ↔ mask !! i = Some true ∨ i ∈ inds) ∧
           count_true mask' = (count_true mask + length inds)%nat.
Proof.
  revert mask. induction inds as [|i inds IH]; intros mask Hnd Hin; simpl.
  - exists mask. split; [done|]. split; [done|]. split; [|lia].
    intros i. rewrite elem_of_nil. tauto.
  - apply NoDup_cons in Hnd as [Hi Hnd]. apply Forall_cons in Hin as [Hmi Hin].
    rewrite decide_True by (by eapply lookup_lt_Some).
    destruct (IH (<[i:=true]> mask) Hnd) as (mask' & Hput & Hlen & Hiff & Hcnt).
    { eapply Forall_impl; [apply Forall_forall; intros j Hj;
        exact (conj Hj (proj1 (Forall_forall _ _) Hin j Hj))|].
      intros j [Hj Hmj]; simpl. rewrite list_lookup_insert_ne; [done|].
      intros ->. done. }
    exists mask'. split; [done|]. split; [by rewrite Hlen, length_insert|].
    split.
    + intros j. rewrite Hiff, elem_of_cons. destruct (decide (i = j)) as [->|Hne].
      * rewrite list_lookup_insert_eq by (by eapply lookup_lt_Some).
        rewrite Hmi. intuition congruence.
      * rewrite list_lookup_insert_ne by done. intuition congruence.
    + rewrite Hcnt, count_true_insert by done. simpl. lia.
Qed.

(** ** Indexing proposal sets *)

Lemma getitem_inds_Ok (bl : BoxList) (inds : list nat) (out : BoxList) :
  getitem_inds bl inds = Ok out ↔
  im_size out = im_size bl ∧ Forall2 (λ i p, items bl !! i = Some p) inds (items out).
Proof.
  unfold getitem_inds. rewrite bind_Ok. split.
  - intros (ps & Hps & [= <-]). simpl. split; [done|].
    apply traverse_Ok in Hps. eapply Forall2_impl; [exact Hps|].
    intros i p. apply getitem_Ok.
  - intros [Hsz Hps]. exists (items out). split.
    + apply traverse_Ok. eapply Forall2_impl; [exact Hps|].
      intros i p. apply getitem_Ok.
    + destruct out; simpl in *. by subst.
Qed.

(** The values a top-k reports are the scores of the proposals at the
    indices it reports. *)
Lemma topk_values_items (bl : BoxList) (inds : list nat) (vs : list Q)
    (ps : list (Box * Q)) :
  Forall2 (λ i v, get_objectness bl !! i = Some v) inds vs →
  Forall2 (λ i p, items bl !! i = Some p) inds ps →
  vs = ps.*2.
Proof.
  intros Hvs. revert ps. induction Hvs as [|i v inds vs Hv _ IH];
    intros ps Hps; inversion Hps as [|? p ? ps' Hp Hps']; simplify_eq/=; [done|].
  f_equal; [|by apply IH]. unfold get_objectness in Hv.
  rewrite list_lookup_fmap, Hp in Hv. by simplify_eq/=.
Qed.

Lemma length_get_objectness (bl : BoxList) : length (get_objectness bl) = len bl.
Proof. unfold get_objectness, len. by rewrite length_fmap. Qed.

Lemma length_pool (boxlists : list BoxList) :
  length (mjoin (get_objectness <$> boxlists)) = sum_list (len <$> boxlists).
Proof.
  rewrite length_join, <-list_fmap_compose. f_equal.
  apply list_fmap_ext. intros _ bl _. apply length_get_objectness.
Qed.

Lemma items_zip_with_getitem_mask (boxlists : list BoxList) (ms : list (list bool)) :
  items <$> zip_with getitem_mask boxlists ms
  = zip_with mask_select (items <$> boxlists) ms.
Proof.
  revert ms. induction boxlists as [|bl boxlists IH]; intros [|m ms]; simpl;
    [done..|]. by rewrite <-IH.
Qed.

(** What one round of the per-image loop returns. *)
Lemma select_image_Ok (self : RPNPostProcessor) (bl : BoxList) :
  0 ≤ fpn_post_nms_top_n self →
  ∃ out inds,
    select_image self bl = Ok out ∧
    im_size out = im_size bl ∧
    is_topk (Z.to_nat (Z.min (fpn_post_nms_top_n self) (Z.of_nat (len bl))))
            (get_objectness bl) (get_objectness out, inds) ∧
    Forall2 (λ i p, items bl !! i = Some p) inds (items out).
Proof.
  intros Hfpn. unfold select_image. rewrite length_get_objectness.
  destruct (topk_Ok (Z.min (fpn_post_nms_top_n self) (Z.of_nat (len bl)))
              (get_objectness bl)) as ([vs inds] & Htopk & Hspec).
  { rewrite length_get_objectness. lia. }
  rewrite Htopk. simpl.
  destruct (traverse_getitem (items bl) inds) as [ps Hps].
  { apply is_topk_lt in Hspec. by rewrite length_get_objectness in Hspec. }
  assert (Hget : getitem_inds bl inds = Ok (mkBoxList (im_size bl) ps)).
  { unfold getitem_inds. by rewrite Hps. }
  exists (mkBoxList (im_size bl) ps), inds. split; [done|]. split; [done|].
  apply getitem_inds_Ok in Hget as [_ Hitems]. split; [|done].
  assert (vs = ps.*2) as ->; [|done].
  eapply topk_values_items; [apply Hspec | exact Hitems].
Qed.

(** ** Clipping, the size filter and suppression *)

Lemma clamp_range (lo hi x : Q) : (lo <= hi)%Q → (lo <= clamp lo hi x <= hi)%Q.
Proof.
  intros Hlh. unfold clamp. split.
  - apply Q.min_glb; [apply Q.le_max_r | done].
  - apply Q.le_min_r.
Qed.

Lemma clip_box_in_image (sz : Z * Z) (b : Box) :
  0 ≤ sz.1 → 0 ≤ sz.2 → in_image sz (clip_box sz b).
Proof.
  intros Hw Hh.
  assert (inject_Z 0 <= inject_Z sz.1)%Q by (by rewrite <-Zle_Qle).
  assert (inject_Z 0 <= inject_Z sz.2)%Q by (by rewrite <-Zle_Qle).
  unfold in_image, clip_box, x1, y1, x2, y2; simpl.
  repeat split; by apply clamp_range.
Qed.

Lemma clamp_mono (lo hi x y : Q) :
  (x <= y)%Q → (clamp lo hi x <= clamp lo hi y)%Q.
Proof.
  intros Hxy. unfold clamp. by apply Q.min_le_compat_r, Q.max_le_compat_r.
Qed.

(** Clamping is monotone, so it never turns a box inside out. *)
Lemma clip_box_sides (sz : Z * Z) (b : Box) :
  (x1 b <= x2 b)%Q → (y1 b <= y2 b)%Q →
  (0 <= width (clip_box sz b))%Q ∧ (0 <= height (clip_box sz b))%Q.
Proof.
  intros Hx Hy. unfold width, height, clip_box, x1, y1, x2, y2 in *; simpl.
  split; unfold Qminus; apply (proj1 (Qle_minus_iff _ _));
    by apply clamp_mono.
Qed.

Lemma clipped_items (proposal : list Box) (score : list Q) (im_shape : Z * Z)
    (p : Box * Q) :
  p ∈ items (clipped proposal score im_shape) →
  ∃ b, b ∈ proposal ∧ p = (clip_box im_shape b, p.2).
Proof.
  unfold clipped, clip_to_image; simpl.
  intros ([b v] & -> & Hbv)%list_elem_of_fmap. exists b.
  split; [by eapply elem_of_zip_l | done].
Qed.

Lemma big_enough_spec (m : Q) (b : Box) :
  big_enough m b = true ↔ (m <= width b)%Q ∧ (m <= height b)%Q.
Proof. unfold big_enough. by rewrite andb_true_iff, !Qle_bool_iff. Qed.

Lemma remove_small_boxes_items (bl : BoxList) (m : Q) (p : Box * Q) :
  p ∈ items (remove_small_boxes bl m) ↔
  p ∈ items bl ∧ (m <= width p.1)%Q ∧ (m <= height p.1)%Q.
Proof.
  unfold remove_small_boxes; simpl.
  rewrite list_elem_of_filter, big_enough_spec. tauto.
Qed.

Lemma nms_greedy_elem (fuel cap : nat) (t : Q) (l : list (Box * Q)) (p : Box * Q) :
  p ∈ nms_greedy fuel cap t l → p ∈ l.
Proof.
  revert cap l. induction fuel as [|fuel IH]; intros [|cap] [|q l] Hp;
    simpl in Hp; try by apply elem_of_nil in Hp.
  apply elem_of_cons in Hp as [->|Hp]; [left|right].
  apply IH in Hp. by apply list_elem_of_filter in Hp as [_ Hp].
Qed.

Lemma boxlist_nms_items (bl : BoxList) (t : Q) (m : Z) (p : Box * Q) :
  p ∈ items (boxlist_nms bl t m) → p ∈ items bl.
Proof.
  unfold boxlist_nms; simpl. intros Hp%nms_greedy_elem.
  by rewrite sort_desc_perm in Hp.
Qed.

Lemma per_image_items (self : RPNPostProcessor) (proposal : list Box)
    (score : list Q) (im_shape : Z * Z) (p : Box * Q) :
  p ∈ items (per_image self proposal score im_shape) →
  p ∈ items (clipped proposal score im_shape) ∧
  (min_size self <= width p.1)%Q ∧ (min_size self <= height p.1)%Q.
Proof.
  unfold per_image. intros Hp%boxlist_nms_items.
  by apply remove_small_boxes_items in Hp.
Qed.

(** ** Transposition and concatenation *)

Lemma zip_star_elem {A} (xss : list (list A)) (t : list A) (x : A) :
  t ∈ zip_star xss → x ∈ t → ∃ xs, xs ∈ xss ∧ x ∈ xs.
Proof.
  revert t. induction xss as [|xs xss IH]; intros t Ht Hx.
  { by apply elem_of_nil in Ht. }
  destruct xss as [|ys xss].
  - simpl in Ht. apply list_elem_of_fmap in Ht as (y & -> & Hy).
    apply list_elem_of_singleton in Hx as ->. exists xs. split; [left|done].
  - change (zip_star (xs :: ys :: xss))
      with (zip_with cons xs (zip_star (ys :: xss))) in Ht.
    apply elem_of_zip_with in Ht as (a & t' & -> & Ha & Ht').
    apply elem_of_cons in Hx as [->|Hx].
    + exists xs. split; [left|done].
    + destruct (IH t' Ht' Hx) as (zs & Hzs & Hxz). exists zs. split; [by right|done].
Qed.

Lemma cat_boxlist_Ok (bls : list BoxList) (bl : BoxList) :
  cat_boxlist bls = Ok bl → items bl = mjoin (items <$> bls).
Proof. destruct bls; [done|]. by intros [= <-]. Qed.

Lemma cat_boxlist_singleton (bl : BoxList) : cat_boxlist [bl] = Ok bl.
Proof. destruct bl as [sz its]. unfold cat_boxlist; simpl. by rewrite app_nil_r. Qed.

Lemma traverse_cat_singletons (bls : list BoxList) :
  traverse cat_boxlist ((λ x, [x]) <$> bls) = Ok bls.
Proof.
  apply traverse_Ok. induction bls; simpl; constructor; [|done].
  apply cat_boxlist_singleton.
Qed.

(** ** Ground-truth injection and the final selection *)

Lemma add_gt_proposals_Ok (self : RPNPostProcessor) (proposals : list BoxList)
    (targets : list Boxes) :
  proposals ≠ [] →
  add_gt_proposals self proposals targets
  = Ok (zip_with with_gt proposals targets).
Proof.
  intros Hne. unfold add_gt_proposals.
  assert (Hcat : ∀ ps ts,
    traverse (λ pg : BoxList * BoxList, cat_boxlist [pg.1; pg.2])
      (zip ps ((λ target, mkBoxList (b_size target)
                            ((λ b, (b, 1%Q)) <$> b_bbox target)) <$> ts))
    = Ok (zip_with with_gt ps ts)).
  { intros ps ts. apply traverse_Ok. revert ts.
    induction ps as [|p ps IH]; intros [|t ts]; simpl; constructor; [|apply IH].
    unfold cat_boxlist, with_gt; simpl. by rewrite app_nil_r. }
  destruct proposals as [|p0 proposals]; [done|]. apply Hcat.
Qed.

Lemma add_gt_proposals_nil (self : RPNPostProcessor) (targets : list Boxes) :
  add_gt_proposals self [] targets = Raise IndexError.
Proof. done. Qed.

Lemma select_over_all_levels_elem (self : RPNPostProcessor)
    (boxlists out : list BoxList) (o : BoxList) (p : Box * Q) :
  select_over_all_levels self boxlists = Ok out →
  o ∈ out → p ∈ items o → ∃ bl, bl ∈ boxlists ∧ p ∈ items bl.
Proof.
  unfold select_over_all_levels.
  destruct (training self && fpn_post_nms_per_batch self).
  - intros H Ho Hp.
    apply bind_Ok in H as (pool & _ & H). apply bind_Ok in H as (vi & _ & H).
    apply bind_Ok in H as (mask & _ & H). apply bind_Ok in H as (ms & _ & H).
    injection H as <-.
    apply elem_of_zip_with in Ho as (bl & m & -> & Hbl & _).
    exists bl. split; [done|].
    eapply elem_of_sublist; [exact Hp | apply mask_select_sublist].
  - intros H Ho Hp. apply traverse_Ok in H.
    apply list_elem_of_lookup in Ho as [n Hn].
    destruct (Forall2_lookup_r _ _ _ _ _ H Hn) as (bl & Hbl & Hsel).
    exists bl. split; [by eapply list_elem_of_lookup_2|].
    unfold select_image in Hsel. apply bind_Ok in Hsel as (vi & _ & Hsel).
    apply getitem_inds_Ok in Hsel as [_ Hsel].
    apply list_elem_of_lookup in Hp as [i Hi].
    destruct (Forall2_lookup_r _ _ _ _ _ Hsel Hi) as (j & _ & Hj).
    by eapply list_elem_of_lookup_2.
Qed.

Lemma at2_Some {A} (t : list (list A)) (n i : nat) (x : A) :
  at2 t n i = Some x ↔ ∃ row, t !! n = Some row ∧ row !! i = Some x.
Proof.
  unfold at2. destruct (t !! n) as [row|]; simpl.
  - split; [eauto | by intros (? & [= <-] & ?)].
  - split; [done | by intros (? & ? & ?)].
Qed.

(** * Properties of the pipeline *)

Section Properties.

Variable sigmoid : Q → Q.

Lemma flat_objectness_Ok (objectness : Tensor4) (N A H W : nat) :
  shape objectness = (N, A, H, W) → N ≠ 0%nat →
  ∃ scores, flat_objectness sigmoid objectness = Ok scores ∧
            length scores = N ∧
            Forall (λ row, length row = (A * H * W)%nat) scores.
Proof.
  intros Hs HN. unfold flat_objectness, view_N_flat. rewrite Hs.
  rewrite decide_False by done. simpl. eexists. split; [done|].
  destruct (permute_and_flatten_shape objectness N A 1 H W) as [Hlen Hrows].
  unfold map2d. split; [by rewrite !length_fmap|].
  rewrite <-list_fmap_compose. apply Forall_fmap.
  eapply Forall_impl; [exact Hrows|]. intros row [Hrow Hc]; simpl.
  rewrite length_fmap, length_join, (sum_list_fmap_same 1) by done. lia.
Qed.

Lemma flat_box_regression_shape (objectness box_regression : Tensor4)
    (N A H W : nat) :
  shape objectness = (N, A, H, W) →
  length (flat_box_regression objectness box_regression) = N ∧
  Forall (λ row, length row = (A * H * W)%nat)
         (flat_box_regression objectness box_regression).
Proof.
  intros Hs. unfold flat_box_regression. rewrite Hs.
  destruct (permute_and_flatten_shape box_regression N A 4 H W) as [Hlen Hrows].
  unfold map2d. split; [by rewrite length_fmap|].
  apply Forall_fmap. eapply Forall_impl; [exact Hrows|].
  intros row [Hrow _]; simpl. by rewrite length_fmap.
Qed.

(** The per-image top-k never fails on a well-shaped score tensor, and
    selects [min(pre_nms_top_n, A*H*W)] anchors of every image. *)
Lemma select_top_Ok (self : RPNPostProcessor) (objectness : Tensor4)
    (N A H W : nat) :
  shape objectness = (N, A, H, W) → N ≠ 0%nat → 0 ≤ pre_nms_top_n self →
  ∃ scores tk,
    flat_objectness sigmoid objectness = Ok scores ∧
    length scores = N ∧
    Forall (λ row, length row = (A * H * W)%nat) scores ∧
    select_top sigmoid self objectness = Ok tk ∧
    Forall2 (is_topk (Z.to_nat (Z.min (pre_nms_top_n self)
                                      (Z.of_nat (A * H * W))))) scores tk.
Proof.
  intros Hs HN Hpre.
  destruct (flat_objectness_Ok objectness N A H W Hs HN)
    as (scores & Hsc & Hlen & Hrows).
  exists scores. unfold select_top. rewrite Hs, Hsc. simpl.
  set (k := Z.min _ _).
  assert (Hall : Forall (λ row, ∃ vi, topk k row = Ok vi ∧
                                      is_topk (Z.to_nat k) row vi) scores).
  { eapply Forall_impl; [exact Hrows|]. intros row Hrow; simpl in Hrow.
    apply topk_Ok. rewrite Hrow. unfold k. lia. }
  destruct (traverse_total (topk k) scores) as [tk Htk].
  { eapply Forall_impl; [exact Hall|]. intros row (vi & ? & _). by exists vi. }
  exists tk. repeat split; [done..|].
  apply traverse_Ok in Htk. clear -Htk Hall.
  induction Htk as [|row vi scores tk Hvi _ IH]; [constructor|].
  apply Forall_cons in Hall as [(vi' & Hvi' & Htop) Hall].
  constructor; [congruence | by apply IH].
Qed.

(** [decode_top] under the input contract: both gathers use the index
    rows [tk.*2] of the top-k, and the decoded boxes come out row by
    row. *)
Lemma decode_top_Ok (self : RPNPostProcessor) (anchors : list Boxes)
    (objectness box_regression : Tensor4) (N A H W : nat) :
  level_contract anchors objectness N A H W → 0 ≤ pre_nms_top_n self →
  ∃ scores tk greg ganc,
    flat_objectness sigmoid objectness = Ok scores ∧
    select_top sigmoid self objectness = Ok tk ∧
    Forall2 (is_topk (Z.to_nat (Z.min (pre_nms_top_n self)
                                      (Z.of_nat (A * H * W))))) scores tk ∧
    gather_rows (flat_box_regression objectness box_regression) tk.*2
      = Ok greg ∧
    gather_rows (b_bbox <$> anchors) tk.*2 = Ok ganc ∧
    length tk = N ∧
    decode_top sigmoid self anchors objectness box_regression
      = Ok (zip_with (zip_with (decode_row (box_coder self))) greg ganc,
            tk.*1, b_size <$> anchors).
Proof.
  intros (Hs & HN & Hanc & Hbb) Hpre.
  destruct (select_top_Ok self objectness N A H W Hs HN Hpre)
    as (scores & tk & Hsc & Hlen & Hrows & Htk & Htop).
  destruct (flat_box_regression_shape objectness box_regression N A H W Hs)
    as [Hrlen Hrrows].
  set (k := Z.to_nat _) in Htop.
  assert (Hlentk : length tk = N).
  { rewrite <-Hlen. symmetry. by eapply Forall2_length. }
  (* every selected index is below A*H*W *)
  assert (Hidx : ∀ n inds, tk.*2 !! n = Some inds →
            length inds = k ∧ Forall (λ i, (i < A * H * W)%nat) inds).
  { intros n inds Hn. apply list_lookup_fmap_Some in Hn as (vi & -> & Hvi).
    destruct (Forall2_lookup_r _ _ _ _ _ Htop Hvi) as (row & Hrow & Hvi').
    split; [apply Hvi'|]. apply is_topk_lt in Hvi'.
    rewrite (Forall_lookup_1 _ _ _ _ Hrows Hrow) in Hvi'. done. }
  assert (Hn_lt : ∀ n inds, tk.*2 !! n = Some inds → (n < N)%nat).
  { intros n inds Hn. apply lookup_lt_Some in Hn.
    by rewrite length_fmap, Hlentk in Hn. }
  destruct (gather_rows_total (flat_box_regression objectness box_regression)
              tk.*2) as [greg Hgreg].
  { intros n inds Hn. destruct (Hidx _ _ Hn) as [_ Hlt].
    destruct (lookup_lt_is_Some_2
                (flat_box_regression objectness box_regression) n)
      as [row Hrow]; [rewrite Hrlen; eauto|].
    exists row. split; [done|].
    by rewrite (Forall_lookup_1 _ _ _ _ Hrrows Hrow). }
  destruct (gather_rows_total (b_bbox <$> anchors) tk.*2) as [ganc Hganc].
  { intros n inds Hn. destruct (Hidx _ _ Hn) as [_ Hlt].
    destruct (lookup_lt_is_Some_2 (b_bbox <$> anchors) n) as [row Hrow];
      [rewrite length_fmap, Hanc; eauto|].
    exists row. split; [done|].
    apply list_lookup_fmap_Some in Hrow as (a & -> & Ha).
    by rewrite (Forall_lookup_1 _ _ _ _ Hbb Ha). }
  exists scores, tk, greg, ganc. repeat split; [done..|].
  unfold decode_top. rewrite Hs, Htk. simpl. rewrite Hgreg. simpl.
  assert (Hcat : torch_cat (b_bbox <$> anchors) = Ok (mjoin (b_bbox <$> anchors))).
  { destruct anchors; [simpl in Hanc; congruence|done]. }
  rewrite Hcat. simpl.
  rewrite (reshape_rows_join N (A * H * W));
    [|by rewrite length_fmap|done|by apply Forall_fmap].
  simpl. rewrite Hganc. simpl.
  pose proof (gather_rows_lengths _ _ _ Hgreg) as Hlreg.
  pose proof (gather_rows_lengths _ _ _ Hganc) as Hlanc.
  assert (Hsame : Forall2 (λ x y, length x = length y) greg ganc).
  { apply Forall2_same_length_lookup. split.
    - rewrite <-(Forall2_length _ _ _ Hlreg). by eapply Forall2_length.
    - intros n x y Hx Hy.
      destruct (Forall2_lookup_r _ _ _ _ _ Hlreg Hx) as (inds & Hinds & ->).
      destruct (Forall2_lookup_l _ _ _ _ _ Hlanc Hinds) as (y' & Hy' & <-).
      congruence. }
  unfold decode. rewrite zip_with_join by done.
  rewrite (reshape_rows_join N k); [done| |done|].
  - rewrite length_zip_with, <-(Forall2_length _ _ _ Hsame).
    rewrite <-(Forall2_length _ _ _ Hlreg), length_fmap. lia.
  - apply Forall_forall. intros row Hrow.
    apply list_elem_of_lookup in Hrow as [n Hn].
    apply lookup_zip_with_Some in Hn as (x & y & -> & Hx & Hy).
    destruct (Forall2_lookup_r _ _ _ _ _ Hlreg Hx) as (inds & Hinds & Hlx).
    destruct (Forall2_lookup_l _ _ _ _ _ Hlanc Hinds) as (y' & Hy' & Hly).
    assert (y' = y) as -> by congruence.
    rewrite length_zip_with, Hlx, Hly. destruct (Hidx _ _ Hinds). lia.
Qed.

(** C1 (index correspondence).  Under the input contract of a level, the
    deltas and the anchors are gathered with the index rows of the very
    top-k that selected the scores: for every image [n] and every output
    position [i], with [idx] the flat index selected for that position,
    the box at position [i] is decoded from the delta and the anchor at
    flat index [idx] of image [n], and the score at position [i] is the
    score at flat index [idx].  These boxes and scores are what the loop
    of [forward_for_single_feature_map] then clips, filters and
    suppresses. *)
Theorem decode_top_index_correspondence (self : RPNPostProcessor)
    (anchors : list Boxes) (objectness box_regression : Tensor4)
    (N A H W : nat) :
  level_contract anchors objectness N A H W → 0 ≤ pre_nms_top_n self →
  ∃ scores tk proposals,
    flat_objectness sigmoid objectness = Ok scores ∧
    select_top sigmoid self objectness = Ok tk ∧
    decode_top sigmoid self anchors objectness box_regression
      = Ok (proposals, tk.*1, b_size <$> anchors) ∧
    length proposals = N ∧
    forward_for_single_feature_map sigmoid self anchors objectness
      box_regression
      = Ok (zip_with (λ ps im_shape, per_image self ps.1 ps.2 im_shape)
              (zip proposals tk.*1) (b_size <$> anchors)) ∧
    ∀ n i idx, at2 tk.*2 n i = Some idx →
      ∃ delta anchor score,
        at2 (flat_box_regression objectness box_regression) n idx = Some delta ∧
        at2 (b_bbox <$> anchors) n idx = Some anchor ∧
        at2 scores n idx = Some score ∧
        at2 proposals n i = Some (decode_row (box_coder self) delta anchor) ∧
        at2 tk.*1 n i = Some score.
Proof.
  intros Hc Hpre.
  destruct (decode_top_Ok self anchors objectness box_regression N A H W Hc Hpre)
    as (scores & tk & greg & ganc & Hsc & Htk & Htop & Hgreg & Hganc & Hlen & Hdec).
  exists scores, tk, (zip_with (zip_with (decode_row (box_coder self))) greg ganc).
  split; [done|]. split; [done|]. split; [done|]. split; [|split].
  { apply gather_rows_lengths in Hgreg as Hl1.
    apply gather_rows_lengths in Hganc as Hl2.
    rewrite length_zip_with, <-(Forall2_length _ _ _ Hl1),
      <-(Forall2_length _ _ _ Hl2), length_fmap. lia. }
  { unfold forward_for_single_feature_map. by rewrite Hdec. }
  intros n i idx (inds & Hinds & Hidx)%at2_Some.
  apply gather_rows_Ok in Hgreg as [_ Hgreg].
  apply gather_rows_Ok in Hganc as [_ Hganc].
  destruct (Hgreg _ _ Hinds) as (drow & gdrow & Hdrow & Hgdrow & HFd).
  destruct (Hganc _ _ Hinds) as (arow & garow & Harow & Hgarow & HFa).
  destruct (Forall2_lookup_l _ _ _ _ _ HFd Hidx) as (delta & Hgd & Hd).
  destruct (Forall2_lookup_l _ _ _ _ _ HFa Hidx) as (anchor & Hga & Ha).
  apply list_lookup_fmap_Some in Hinds as (vi & -> & Hvi).
  destruct (Forall2_lookup_r _ _ _ _ _ Htop Hvi) as (srow & Hsrow & Hvi').
  destruct Hvi' as (_ & HFs & _).
  destruct (Forall2_lookup_l _ _ _ _ _ HFs Hidx) as (score & Hgs & Hs).
  exists delta, anchor, score. repeat split.
  - apply at2_Some. eauto.
  - apply at2_Some. eauto.
  - apply at2_Some. eauto.
  - apply at2_Some. exists (zip_with (decode_row (box_coder self)) gdrow garow).
    split; apply lookup_zip_with_Some; eauto 10.
  - apply at2_Some. exists vi.1. split; [|done].
    apply list_lookup_fmap_Some. eauto.
Qed.

(** C6 (clamping of [pre_nms_top_n]).  Under the input contract of a
    level the per-image top-k runs with [k = min(pre_nms_top_n, A*H*W)]
    and succeeds: every image gets exactly [k] scores and [k] indices,
    that is all [A*H*W] anchors when [pre_nms_top_n] exceeds their
    number, and the whole call returns one proposal set per image. *)
Theorem pre_nms_top_n_clamps (self : RPNPostProcessor)
    (anchors : list Boxes) (objectness box_regression : Tensor4)
    (N A H W : nat) :
  level_contract anchors objectness N A H W → 0 ≤ pre_nms_top_n self →
  ∃ tk out,
    select_top sigmoid self objectness = Ok tk ∧
    length tk = N ∧
    Forall (λ vi,
              Z.of_nat (length vi.1)
                = Z.min (pre_nms_top_n self) (Z.of_nat (A * H * W)) ∧
              Z.of_nat (length vi.2)
                = Z.min (pre_nms_top_n self) (Z.of_nat (A * H * W))) tk ∧
    (Z.of_nat (A * H * W) < pre_nms_top_n self →
     Forall (λ vi, length vi.2 = (A * H * W)%nat) tk) ∧
    forward_for_single_feature_map sigmoid self anchors objectness
      box_regression = Ok out ∧
    length out = N.
Proof.
  intros Hc Hpre.
  destruct (decode_top_Ok self anchors objectness box_regression N A H W Hc Hpre)
    as (scores & tk & greg & ganc & Hsc & Htk & Htop & Hgreg & Hganc & Hlen & Hdec).
  assert (Hk : Forall (λ vi,
              Z.of_nat (length vi.1)
                = Z.min (pre_nms_top_n self) (Z.of_nat (A * H * W)) ∧
              Z.of_nat (length vi.2)
                = Z.min (pre_nms_top_n self) (Z.of_nat (A * H * W))) tk).
  { apply Forall_forall. intros vi Hvi.
    apply list_elem_of_lookup in Hvi as [n Hn].
    destruct (Forall2_lookup_r _ _ _ _ _ Htop Hn) as (row & _ & Hrow).
    rewrite (is_topk_length_values _ _ _ Hrow). destruct Hrow as [-> _]. lia. }
  eexists tk, _. unfold forward_for_single_feature_map. rewrite Hdec. simpl.
  split; [done|]. split; [done|]. split; [done|]. split; [|split; [done|]].
  - intros Hbig. eapply Forall_impl; [exact Hk|]. intros vi [_ Hvi]. lia.
  - apply gather_rows_lengths in Hgreg as Hl1.
    apply gather_rows_lengths in Hganc as Hl2.
    destruct Hc as (_ & _ & Hanc & _).
    rewrite !length_zip_with, !length_fmap, <-(Forall2_length _ _ _ Hl1),
      <-(Forall2_length _ _ _ Hl2), length_fmap. lia.
Qed.

Lemma select_per_image_mode (self : RPNPostProcessor) (boxlists : list BoxList) :
  training self = false ∨ fpn_post_nms_per_batch self = false →
  select_over_all_levels self boxlists = traverse (select_image self) boxlists.
Proof.
  intros Hmode. unfold select_over_all_levels.
  by destruct Hmode as [-> | ->]; [|rewrite andb_false_r].
Qed.

Lemma select_image_len (self : RPNPostProcessor) (bl o : BoxList) :
  0 ≤ fpn_post_nms_top_n self → select_image self bl = Ok o →
  Z.of_nat (len o) = Z.min (fpn_post_nms_top_n self) (Z.of_nat (len bl)).
Proof.
  intros Hfpn Ho.
  destruct (select_image_Ok self bl Hfpn) as (o' & inds & Ho' & _ & Htop & _).
  assert (o' = o) as -> by congruence.
  pose proof (is_topk_length_values _ _ _ Htop) as Hl. simpl in Hl.
  rewrite length_get_objectness in Hl. lia.
Qed.

(** C3 (per-image mode).  Outside per-batch mode, that is at inference
    or with [fpn_post_nms_per_batch] off, every image is treated on its
    own: its result is what [select_over_all_levels] returns for that
    image alone, it holds [min(fpn_post_nms_top_n, n)] of the image's
    [n] proposals, taken at distinct positions of that image, in
    descending order of score, and no proposal left out has a higher
    score than a proposal taken. *)
Theorem select_per_image (self : RPNPostProcessor) (boxlists : list BoxList) :
  training self = false ∨ fpn_post_nms_per_batch self = false →
  0 ≤ fpn_post_nms_top_n self →
  ∃ out,
    select_over_all_levels self boxlists = Ok out ∧
    Forall2
      (λ bl o,
         select_over_all_levels self [bl] = Ok [o] ∧
         im_size o = im_size bl ∧
         Z.of_nat (len o)
           = Z.min (fpn_post_nms_top_n self) (Z.of_nat (len bl)) ∧
         ∃ inds,
           is_topk (Z.to_nat (Z.min (fpn_post_nms_top_n self)
                                    (Z.of_nat (len bl))))
                   (get_objectness bl) (get_objectness o, inds) ∧
           Forall2 (λ i p, items bl !! i = Some p) inds (items o))
      boxlists out.
Proof.
  intros Hmode Hfpn. rewrite !select_per_image_mode by done.
  destruct (traverse_total (select_image self) boxlists) as [out Hout].
  { apply Forall_forall. intros bl _.
    destruct (select_image_Ok self bl Hfpn) as (o & _ & Ho & _). eauto. }
  exists out. split; [done|]. apply traverse_Ok in Hout.
  eapply Forall2_impl; [exact Hout|]. intros bl o Ho; simpl in *.
  rewrite select_per_image_mode by done. simpl. rewrite Ho. simpl.
  split; [done|].
  destruct (select_image_Ok self bl Hfpn) as (o' & inds & Ho' & Hsz & Htop & Hit).
  assert (o' = o) as -> by congruence.
  split; [done|]. split; [by apply select_image_len | eauto].
Qed.

Lemma getitem_mask_join (boxlists : list BoxList) (mask : list bool) :
  length mask = sum_list (len <$> boxlists) →
  mjoin (items <$> zip_with getitem_mask boxlists
                     (reshape (len <$> boxlists) mask))
  = mask_select (mjoin (items <$> boxlists)) mask.
Proof.
  intros Hlen. rewrite items_zip_with_getitem_mask.
  rewrite <-mask_select_reshape; by rewrite <-list_fmap_compose.
Qed.

Lemma getitem_mask_total (boxlists : list BoxList) (mask : list bool) :
  length mask = sum_list (len <$> boxlists) →
  sum_list (len <$> zip_with getitem_mask boxlists
                      (reshape (len <$> boxlists) mask))
  = count_true mask.
Proof.
  intros Hlen.
  rewrite (list_fmap_compose items length), <-length_join.
  rewrite getitem_mask_join by done. apply mask_select_length.
  by rewrite length_join, <-list_fmap_compose.
Qed.

(** The mask that per-batch mode builds: set exactly at the positions a
    top-k over the pooled scores selects. *)
Lemma per_batch_mask (self : RPNPostProcessor) (boxlists : list BoxList) :
  training self = true → fpn_post_nms_per_batch self = true →
  0 ≤ fpn_post_nms_top_n self → boxlists ≠ [] →
  let pool := mjoin (get_objectness <$> boxlists) in
  let k := Z.to_nat (Z.min (fpn_post_nms_top_n self)
                           (Z.of_nat (length pool))) in
  ∃ vi mask,
    is_topk k pool vi ∧
    length mask = length pool ∧
    (∀ i, mask !! i = Some true ↔ i ∈ vi.2) ∧
    count_true mask = k ∧
    select_over_all_levels self boxlists
    = Ok (zip_with getitem_mask boxlists (reshape (len <$> boxlists) mask)).
Proof.
  intros Htr Hpb Hfpn Hne pool k.
  destruct (topk_Ok (Z.min (fpn_post_nms_top_n self) (Z.of_nat (length pool)))
              pool) as (vi & Htopk & Hspec); [lia|].
  fold k in Hspec.
  destruct (index_put_Ok (replicate (length pool) false) vi.2)
    as (mask & Hput & Hlen & Hiff & Hcnt).
  { apply Hspec. }
  { eapply Forall_impl; [exact (is_topk_lt _ _ _ Hspec)|].
    intros i Hi; simpl in Hi. by apply lookup_replicate_2. }
  rewrite length_replicate in Hlen.
  rewrite count_true_replicate in Hcnt. simpl in Hcnt.
  exists vi, mask. split; [done|]. split; [done|]. split; [|split].
  - intros i. rewrite Hiff. split; [|by right].
    intros [Hi|Hi]; [|done]. by apply lookup_replicate in Hi as [? _].
  - rewrite Hcnt. apply Hspec.
  - unfold select_over_all_levels. rewrite Htr, Hpb. simpl.
    assert (torch_cat (get_objectness <$> boxlists) = Ok pool) as ->.
    { by destruct boxlists. }
    simpl. rewrite Htopk. simpl. rewrite Hput. simpl.
    unfold torch_split. rewrite decide_True; [done|].
    rewrite Hlen. unfold pool. by rewrite length_pool.
Qed.

(** C2 (per-batch mode).  In training mode with [fpn_post_nms_per_batch]
    set, the scores of all images are pooled in one flat list, a single
    top-k with [k = min(fpn_post_nms_top_n, total)] is taken over the
    pool, and every image keeps exactly its proposals whose pooled
    position was selected, in their original relative order: the
    survivors of all images together are the pooled proposals at the
    selected positions, [k] in number. *)
Theorem select_per_batch (self : RPNPostProcessor) (boxlists : list BoxList) :
  training self = true → fpn_post_nms_per_batch self = true →
  0 ≤ fpn_post_nms_top_n self → boxlists ≠ [] →
  let pool := mjoin (get_objectness <$> boxlists) in
  let k := Z.to_nat (Z.min (fpn_post_nms_top_n self)
                           (Z.of_nat (length pool))) in
  ∃ vi mask out,
    is_topk k pool vi ∧
    length mask = length pool ∧
    (∀ i, mask !! i = Some true ↔ i ∈ vi.2) ∧
    select_over_all_levels self boxlists = Ok out ∧
    out = zip_with getitem_mask boxlists (reshape (len <$> boxlists) mask) ∧
    mjoin (items <$> out) = mask_select (mjoin (items <$> boxlists)) mask ∧
    sum_list (len <$> out) = k ∧
    Forall2 (λ bl o, im_size o = im_size bl ∧
                     items o `sublist_of` items bl) boxlists out.
Proof.
  intros Htr Hpb Hfpn Hne pool k.
  destruct (per_batch_mask self boxlists Htr Hpb Hfpn Hne)
    as (vi & mask & Hspec & Hlen & Hiff & Hcnt & Hsel).
  assert (Hsum : length mask = sum_list (len <$> boxlists)).
  { rewrite Hlen. apply length_pool. }
  exists vi, mask,
    (zip_with getitem_mask boxlists (reshape (len <$> boxlists) mask)).
  split; [done|]. split; [done|]. split; [done|].
  split; [exact Hsel|]. split; [done|].
  split; [by apply getitem_mask_join|].
  split; [by rewrite getitem_mask_total|].
  apply Forall2_same_length_lookup. split.
  { rewrite length_zip_with, length_reshape, length_fmap. lia. }
  intros n bl o Hbl Ho.
  apply lookup_zip_with_Some in Ho as (bl' & m & -> & Hbl' & Hm).
  assert (bl' = bl) as -> by congruence.
  split; [done|]. apply mask_select_sublist.
Qed.

Lemma forward_for_single_feature_map_items (self : RPNPostProcessor)
    (anchors : list Boxes) (objectness box_regression : Tensor4)
    (out : list BoxList) (bl : BoxList) (p : Box * Q) :
  forward_for_single_feature_map sigmoid self anchors objectness box_regression
    = Ok out →
  bl ∈ out → p ∈ items bl →
  (min_size self <= width p.1)%Q ∧ (min_size self <= height p.1)%Q.
Proof.
  unfold forward_for_single_feature_map. intros H Hbl Hp.
  apply bind_Ok in H as ([[proposals scores] shapes] & _ & [= <-]).
  apply elem_of_zip_with in Hbl as (ps & sz & -> & _ & _).
  by apply per_image_items in Hp as [_ Hp].
Qed.

(** [forward] with targets is [forward] without, followed by the
    injection when the module is in training mode. *)
Lemma forward_targets (self : RPNPostProcessor) (anchors : list (list Boxes))
    (objectness box_regression : list Tensor4) (targets : option (list Boxes)) :
  forward sigmoid self anchors objectness box_regression targets
  = let* boxlists := forward sigmoid self anchors objectness box_regression None in
    match training self, targets with
    | true, Some targets => add_gt_proposals self boxlists targets
    | _, _ => Ok boxlists
    end.
Proof.
  unfold forward.
  destruct (traverse _ (zip _ box_regression)) as [sampled|e]; simpl; [|done].
  destruct (traverse cat_boxlist _) as [boxlists|e]; simpl; [|done].
  destruct (decide _); [destruct (select_over_all_levels _ _)|]; simpl;
    by destruct (training self).
Qed.

Lemma forward_None_items (self : RPNPostProcessor) (anchors : list (list Boxes))
    (objectness box_regression : list Tensor4)
    (out : list BoxList) (bl : BoxList) (p : Box * Q) :
  forward sigmoid self anchors objectness box_regression None = Ok out →
  bl ∈ out → p ∈ items bl →
  (min_size self <= width p.1)%Q ∧ (min_size self <= height p.1)%Q.
Proof.
  unfold forward. intros H Hbl Hp.
  apply bind_Ok in H as (sampled & Hsampled & H).
  apply bind_Ok in H as (boxlists & Hcat & H).
  apply bind_Ok in H as (selected & Hsel & H).
  assert (out = selected) as -> by (destruct (training self); congruence).
  assert (Hin : ∃ bl', bl' ∈ boxlists ∧ p ∈ items bl').
  { destruct (decide _); [by eapply select_over_all_levels_elem|].
    injection Hsel as ->. eauto. }
  destruct Hin as (bl' & Hbl' & Hp').
  apply traverse_Ok in Hcat.
  apply list_elem_of_lookup in Hbl' as [n Hn].
  destruct (Forall2_lookup_r _ _ _ _ _ Hcat Hn) as (t & Ht & Hcatt).
  apply cat_boxlist_Ok in Hcatt. rewrite Hcatt in Hp'.
  apply list_elem_of_join in Hp' as (its & Hp' & Hits).
  apply list_elem_of_fmap in Hits as (x & -> & Hx).
  apply list_elem_of_lookup_2 in Ht.
  destruct (zip_star_elem _ _ _ Ht Hx) as (level & Hlevel & Hxl).
  apply traverse_Ok in Hsampled.
  apply list_elem_of_lookup in Hlevel as [l Hl].
  destruct (Forall2_lookup_r _ _ _ _ _ Hsampled Hl) as (aob & _ & Hf).
  by eapply forward_for_single_feature_map_items.
Qed.

(** C7 (minimum size), as amended.  No proposal narrower or lower than
    [min_size] appears in the output of [forward_for_single_feature_map];
    in the output of [forward] the only boxes that may be smaller are the
    ground-truth boxes injected in training mode, which carry objectness
    1 and are not filtered. *)
Theorem no_small_proposals (self : RPNPostProcessor) :
  (∀ anchors objectness box_regression out bl p,
     forward_for_single_feature_map sigmoid self anchors objectness
       box_regression = Ok out →
     bl ∈ out → p ∈ items bl →
     (min_size self <= width p.1)%Q ∧ (min_size self <= height p.1)%Q) ∧
  (∀ anchors objectness box_regression targets out bl p,
     forward sigmoid self anchors objectness box_regression targets = Ok out →
     bl ∈ out → p ∈ items bl →
     ((min_size self <= width p.1)%Q ∧ (min_size self <= height p.1)%Q) ∨
     (training self = true ∧ p.2 = 1%Q ∧
      ∃ tg t, targets = Some tg ∧ t ∈ tg ∧ p.1 ∈ b_bbox t)).
Proof.
  split.
  { intros *. apply forward_for_single_feature_map_items. }
  intros anchors objectness box_regression targets out bl p H Hbl Hp.
  rewrite forward_targets in H. apply bind_Ok in H as (sel & Hsel & H).
  destruct (training self) eqn:Htr, targets as [tg|];
    try (injection H as <-; left; by eapply forward_None_items).
  destruct (decide (sel = [])) as [->|Hne].
  { by rewrite add_gt_proposals_nil in H. }
  rewrite add_gt_proposals_Ok in H by done. injection H as <-.
  apply elem_of_zip_with in Hbl as (s & t & -> & Hs & Ht).
  unfold with_gt in Hp; simpl in Hp. apply elem_of_app in Hp as [Hp|Hp].
  - left. by eapply forward_None_items.
  - right. apply list_elem_of_fmap in Hp as (b & -> & Hb). eauto 10.
Qed.

(** C4 (ground-truth injection).  In training mode with one target per
    image, [forward] returns the proposal sets it returns without targets,
    that is after the final selection, each followed by the ground-truth
    boxes of its image with objectness exactly 1: nothing selected is
    removed or reordered, and no injected box is dropped. *)
Theorem gt_injection_after_selection (self : RPNPostProcessor)
    (anchors : list (list Boxes)) (objectness box_regression : list Tensor4)
    (targets : list Boxes) (selected : list BoxList) :
  training self = true →
  forward sigmoid self anchors objectness box_regression None = Ok selected →
  selected ≠ [] → length targets = length selected →
  ∃ out,
    forward sigmoid self anchors objectness box_regression (Some targets)
      = Ok out ∧
    length out = length selected ∧
    ∀ i s t, selected !! i = Some s → targets !! i = Some t →
      ∃ o, out !! i = Some o ∧ im_size o = im_size s ∧
           items o = items s ++ ((λ b, (b, 1%Q)) <$> b_bbox t).
Proof.
  intros Htr Hsel Hne Hlen. exists (zip_with with_gt selected targets).
  split; [|split].
  - rewrite forward_targets, Hsel, Htr. simpl. by apply add_gt_proposals_Ok.
  - rewrite length_zip_with. lia.
  - intros i s t Hs Ht. exists (with_gt s t). split; [|done].
    apply lookup_zip_with_Some. eauto.
Qed.

(** C5 (single level).  With exactly one feature level [forward] runs no
    cross-level selection: whatever [fpn_post_nms_top_n] is, it returns
    the output of [forward_for_single_feature_map] for that level
    unchanged, up to the ground-truth injection of training mode; a
    failure of the level is the failure of [forward]. *)
Theorem single_level_skips_selection (self : RPNPostProcessor)
    (anchors : list (list Boxes)) (a : list Boxes) (rest_a : list (list Boxes))
    (o b : Tensor4) (rest_b : list Tensor4) (targets : option (list Boxes)) :
  zip_star anchors = a :: rest_a →
  forward sigmoid self anchors [o] (b :: rest_b) targets
  = let* boxlists := forward_for_single_feature_map sigmoid self a o b in
    match training self, targets with
    | true, Some targets => add_gt_proposals self boxlists targets
    | _, _ => Ok boxlists
    end.
Proof.
  intros Ha. unfold forward. rewrite Ha. simpl.
  destruct (forward_for_single_feature_map sigmoid self a o b) as [r|e];
    simpl; [|done].
  rewrite zip_with_nil_r. simpl.
  change (list_fmap BoxList (list BoxList) (λ x, [x]) r)
    with ((λ x : BoxList, [x]) <$> r).
  by rewrite traverse_cat_singletons.
Qed.

(** C8 (clipping and the size filter), as amended.  The clipping step
    clamps every box to the image and removes none, so a zero-area box it
    produces survives that step; the size filter that follows keeps such
    a box exactly when neither side is below [min_size].  Hence it always
    removes the box when [min_size] is positive; when [min_size] is 0 it
    keeps the box exactly when neither side is negative, which holds
    whenever the box had [x1 <= x2] and [y1 <= y2] before clipping. *)
Theorem clip_then_min_size (self : RPNPostProcessor) (proposal : list Box)
    (score : list Q) (im_shape : Z * Z) (p : Box * Q) :
  p ∈ items (clipped proposal score im_shape) → (area p.1 == 0)%Q →
  bbox (clipped proposal score im_shape)
    = clip_box im_shape <$> (zip proposal score).*1 ∧
  get_objectness (clipped proposal score im_shape) = (zip proposal score).*2 ∧
  (0 ≤ im_shape.1 → 0 ≤ im_shape.2 → in_image im_shape p.1) ∧
  (p ∈ items (remove_small_boxes (clipped proposal score im_shape)
                                 (min_size self))
   ↔ (min_size self <= width p.1)%Q ∧ (min_size self <= height p.1)%Q) ∧
  ((0 < min_size self)%Q →
   (p ∉ items (remove_small_boxes (clipped proposal score im_shape)
                                  (min_size self))) ∧
   (p ∉ items (per_image self proposal score im_shape))) ∧
  ((min_size self == 0)%Q →
   (p ∈ items (remove_small_boxes (clipped proposal score im_shape)
                                  (min_size self))
    ↔ (0 <= width p.1)%Q ∧ (0 <= height p.1)%Q) ∧
   (∀ b, p.1 = clip_box im_shape b → (x1 b <= x2 b)%Q → (y1 b <= y2 b)%Q →
         p ∈ items (remove_small_boxes (clipped proposal score im_shape)
                                       (min_size self)))) ∧
  (∃ b, (b, p.2) ∈ zip proposal score ∧ p.1 = clip_box im_shape b).
Proof.
  intros Hp Harea. split; [|split; [|split; [|split; [|split; [|split]]]]].
  - unfold bbox, clipped, clip_to_image; simpl.
    rewrite <-!list_fmap_compose. by apply list_fmap_ext.
  - unfold get_objectness, clipped, clip_to_image; simpl.
    rewrite <-!list_fmap_compose. by apply list_fmap_ext.
  - intros Hw Hh. apply clipped_items in Hp as (b & _ & ->).
    by apply clip_box_in_image.
  - rewrite remove_small_boxes_items. tauto.
  - intros Hmin.
    assert (Hno : ¬ ((min_size self <= width p.1)%Q ∧
                     (min_size self <= height p.1)%Q)).
    { intros [Hw Hh]. unfold area in Harea.
      assert (0 < width p.1 * height p.1)%Q as Hpos.
      { apply Qmult_lt_0_compat; by eapply Qlt_le_trans. }
      rewrite Harea in Hpos. by apply Qlt_irrefl in Hpos. }
    split.
    + rewrite remove_small_boxes_items. tauto.
    + intros Hin%per_image_items. tauto.
  - intros Hzero.
    assert (Hiff : p ∈ items (remove_small_boxes
                                (clipped proposal score im_shape)
                                (min_size self))
                   ↔ (0 <= width p.1)%Q ∧ (0 <= height p.1)%Q).
    { rewrite remove_small_boxes_items, !Hzero. tauto. }
    split; [exact Hiff|].
    intros b Hb Hx Hy. apply Hiff. rewrite Hb. by apply clip_box_sides.
  - revert Hp. unfold clipped, clip_to_image; simpl.
    intros ([b v] & -> & Hbv)%list_elem_of_fmap. by exists b.
Qed.

(** C9 (configuration values), as amended.  The constructor validates
    nothing: for every choice of arguments it returns a post-processor
    that stores the thresholds and limits exactly as given. *)
Theorem init_stores_any_configuration (default_box_coder : BoxCoder)
    (pre post : Z) (thresh msize : Q) (coder : option BoxCoder)
    (fpn : option Z) (per_batch : bool) :
  ∃ self,
    RPNPostProcessor_init default_box_coder pre post thresh msize coder fpn
      per_batch = Ok self ∧
    pre_nms_top_n self = pre ∧ post_nms_top_n self = post ∧
    nms_thresh self = thresh ∧ min_size self = msize ∧
    fpn_post_nms_per_batch self = per_batch.
Proof. eexists. split; [done|]. done. Qed.

(** C10 (default of [fpn_post_nms_top_n]).  A post-processor built with
    [fpn_post_nms_top_n = None] has [post_nms_top_n] as its cross-level
    limit, and [select_over_all_levels] caps with it: per image in
    per-image mode, over the whole batch in per-batch mode. *)
Theorem fpn_post_nms_top_n_default (default_box_coder : BoxCoder)
    (pre post : Z) (thresh msize : Q) (coder : option BoxCoder)
    (per_batch : bool) :
  0 ≤ post →
  ∃ self,
    RPNPostProcessor_init default_box_coder pre post thresh msize coder None
      per_batch = Ok self ∧
    fpn_post_nms_top_n self = post ∧
    ∀ mode boxlists out,
      select_over_all_levels (train mode self) boxlists = Ok out →
      (mode && per_batch = false →
       Forall2 (λ bl o, Z.of_nat (len o) = Z.min post (Z.of_nat (len bl)))
               boxlists out) ∧
      (mode && per_batch = true →
       Z.of_nat (sum_list (len <$> out))
       = Z.min post (Z.of_nat (sum_list (len <$> boxlists)))).
Proof.
  intros Hpost. eexists. split; [done|]. split; [done|].
  intros mode boxlists out Hout. split.
  - intros Hmode. rewrite select_per_image_mode in Hout
      by (simpl; by apply andb_false_iff).
    apply traverse_Ok in Hout. eapply Forall2_impl; [exact Hout|].
    intros bl o Ho. simpl in Ho. apply select_image_len in Ho; done.
  - intros Hmode. apply andb_true_iff in Hmode as [-> ->].
    assert (Hne : boxlists ≠ []).
    { intros ->. unfold select_over_all_levels in Hout. by simpl in Hout. }
    destruct (per_batch_mask
                (train true (mkRPNPostProcessor pre post thresh msize
                   (match coder with None => default_box_coder | Some bc => bc end)
                   post true true)) boxlists)
      as (vi & mask & _ & Hlen & _ & Hcnt & Hsel); [done..|].
    rewrite Hsel in Hout. injection Hout as <-.
    rewrite getitem_mask_total by (by rewrite Hlen, length_pool).
    rewrite Hcnt, length_pool. simpl. lia.
Qed.

End Properties.

(** * Worked examples *)

Ltac solve_contract :=
  repeat split; try reflexivity; try discriminate; repeat constructor.

Example spec_scenario_level1 :
  get_objectness <$>
    (match forward_for_single_feature_map ex_sigmoid ex_self
             [ex_anchors1; ex_anchors1] ex_objectness1 ex_regression
     with Ok l => l | Raise _ => [] end)
  = [[0.9; 0.8]; [0.8; 0.3]]%Q.
Proof. vm_compute. reflexivity. Qed.

Example spec_scenario_final :
  get_objectness <$> ex_selected = [[0.95; 0.9; 0.8]; [0.8; 0.8; 0.3]]%Q.
Proof. vm_compute. reflexivity. Qed.

Example forward_without_images :
  forward ex_sigmoid ex_self [] [tensor_of_lists 0 1 1 1 []]
    [tensor_of_lists 0 4 1 1 []] None = Ok [].
Proof. reflexivity. Qed.

Example level_without_images :
  forward_for_single_feature_map ex_sigmoid ex_self []
    (tensor_of_lists 0 1 1 1 []) (tensor_of_lists 0 4 1 1 [])
  = Raise RuntimeError.
Proof. reflexivity. Qed.

Example topk_beyond_length : topk 3 [0.5; 0.25]%Q = Raise RuntimeError.
Proof. reflexivity. Qed.

(** ** The theorems at the inputs of the examples *)

Lemma decode_top_index_correspondence_witness :
  level_contract [ex_anchors1; ex_anchors1] ex_objectness1 2 1 1 4 ∧
  0 ≤ pre_nms_top_n ex_self ∧
  ∃ (tk : list (list Q * list nat)) proposals,
    decode_top ex_sigmoid ex_self [ex_anchors1; ex_anchors1] ex_objectness1
      ex_regression = Ok (proposals, tk.*1, [(100, 100); (100, 100)]) ∧
    length proposals = 2%nat.
Proof.
  assert (Hc : level_contract [ex_anchors1; ex_anchors1] ex_objectness1 2 1 1 4)
    by solve_contract.
  assert (Hp : 0 ≤ pre_nms_top_n ex_self) by (simpl; lia).
  split; [exact Hc|]. split; [exact Hp|].
  destruct (decode_top_index_correspondence ex_sigmoid ex_self
              [ex_anchors1; ex_anchors1] ex_objectness1 ex_regression
              2 1 1 4 Hc Hp) as (scores & tk & proposals & _ & _ & Hd & Hl & _).
  exists tk, proposals. split; [exact Hd | exact Hl].
Defined.

Lemma pre_nms_top_n_clamps_witness :
  level_contract [ex_anchors2; ex_anchors2] ex_objectness2 2 1 1 2 ∧
  0 ≤ pre_nms_top_n ex_self ∧
  Z.of_nat (1 * 1 * 2) < pre_nms_top_n ex_self ∧
  ∃ tk out,
    select_top ex_sigmoid ex_self ex_objectness2 = Ok tk ∧
    Forall (λ vi, length vi.2 = (1 * 1 * 2)%nat) tk ∧
    forward_for_single_feature_map ex_sigmoid ex_self [ex_anchors2; ex_anchors2]
      ex_objectness2 ex_regression = Ok out ∧
    length out = 2%nat.
Proof.
  assert (Hc : level_contract [ex_anchors2; ex_anchors2] ex_objectness2 2 1 1 2)
    by solve_contract.
  assert (Hp : 0 ≤ pre_nms_top_n ex_self) by (simpl; lia).
  assert (Hbig : Z.of_nat (1 * 1 * 2) < pre_nms_top_n ex_self) by (simpl; lia).
  split; [exact Hc|]. split; [exact Hp|]. split; [exact Hbig|].
  destruct (pre_nms_top_n_clamps ex_sigmoid ex_self [ex_anchors2; ex_anchors2]
              ex_objectness2 ex_regression 2 1 1 2 Hc Hp)
    as (tk & out & Htk & _ & _ & Hall & Hout & Hlen).
  exists tk, out. split; [exact Htk|]. split; [exact (Hall Hbig)|].
  split; [exact Hout | exact Hlen].
Defined.

Lemma select_per_image_witness :
  ∃ out,
    select_over_all_levels ex_self ex_selected = Ok out ∧
    Forall2 (λ bl o, Z.of_nat (len o) = Z.min 3 (Z.of_nat (len bl)))
            ex_selected out.
Proof.
  destruct (select_per_image ex_self ex_selected) as (out & Hout & HF).
  - right. reflexivity.
  - simpl. lia.
  - exists out. split; [exact Hout|].
    eapply Forall2_impl; [exact HF|]. intros bl o (_ & _ & Hl & _). exact Hl.
Defined.

Lemma select_per_batch_witness :
  ∃ out,
    select_over_all_levels ex_self_batch ex_selected = Ok out ∧
    sum_list (len <$> out) = 3%nat ∧
    Forall2 (λ bl o, items o `sublist_of` items bl) ex_selected out.
Proof.
  destruct (select_per_batch ex_self_batch ex_selected)
    as (vi & mask & out & _ & _ & _ & Hout & _ & _ & Hsum & HF).
  - reflexivity.
  - reflexivity.
  - simpl. lia.
  - discriminate.
  - exists out. split; [exact Hout|]. split; [exact Hsum|].
    eapply Forall2_impl; [exact HF|]. intros bl o [_ Hs]. exact Hs.
Defined.

Lemma gt_injection_after_selection_witness :
  ∃ out,
    forward ex_sigmoid ex_self ex_anchors [ex_objectness1; ex_objectness2]
      [ex_regression; ex_regression] (Some ex_targets) = Ok out ∧
    length out = 2%nat ∧
    ∃ o, out !! 0%nat = Some o ∧
         get_objectness o = [0.95; 0.9; 0.8; 1]%Q.
Proof.
  destruct (gt_injection_after_selection ex_sigmoid ex_self ex_anchors
              [ex_objectness1; ex_objectness2] [ex_regression; ex_regression]
              ex_targets ex_selected) as (out & Hout & Hlen & Hitems).
  - reflexivity.
  - vm_compute. reflexivity.
  - discriminate.
  - reflexivity.
  - exists out. split; [exact Hout|]. split; [exact Hlen|].
    destruct (Hitems 0%nat
                (mkBoxList (100, 100)
                   [((0, 50, 10, 60), 0.95); ((0, 0, 10, 10), 0.9);
                    ((20, 0, 30, 10), 0.8)]%Q)
                (mkBoxes (100, 100) [(1, 1, 3, 3)%Q]))
      as (o & Ho & _ & Hit); [reflexivity | reflexivity |].
    exists o. split; [exact Ho|]. unfold get_objectness. rewrite Hit.
    reflexivity.
Defined.

Lemma single_level_skips_selection_witness :
  forward ex_sigmoid (train false ex_self) [[ex_anchors1]; [ex_anchors1]]
    [ex_objectness1] [ex_regression] None
  = forward_for_single_feature_map ex_sigmoid (train false ex_self)
      [ex_anchors1; ex_anchors1] ex_objectness1 ex_regression.
Proof.
  rewrite (single_level_skips_selection ex_sigmoid (train false ex_self)
             [[ex_anchors1]; [ex_anchors1]] [ex_anchors1; ex_anchors1] []
             ex_objectness1 ex_regression [] None); [|reflexivity].
  destruct (forward_for_single_feature_map _ _ _ _ _); reflexivity.
Defined.

Lemma no_small_proposals_witness :
  (5 <= width (square 0 0))%Q ∧ (5 <= height (square 0 0))%Q.
Proof.
  apply (proj1 (no_small_proposals ex_sigmoid ex_self_batch)
           [ex_anchors1; ex_anchors1] ex_objectness1 ex_regression
           [mkBoxList (100, 100) [(square 0 0, 0.9%Q); (square 20 0, 0.8%Q)];
            mkBoxList (100, 100) [(square 20 0, 0.8%Q); (square 40 0, 0.3%Q)]]
           (mkBoxList (100, 100) [(square 0 0, 0.9%Q); (square 20 0, 0.8%Q)])
           (square 0 0, 0.9%Q)).
  - vm_compute. reflexivity.
  - apply list_elem_of_here.
  - apply list_elem_of_here.
Defined.

Lemma clip_then_min_size_witness :
  ((100, 10, 100, 20, 0.9) : Box * Q)%Q
    ∈ items (clipped [square 200 10] [0.9%Q] (100, 100)) ∧
  (area (100, 10, 100, 20) == 0)%Q ∧
  (((100, 10, 100, 20, 0.9) : Box * Q)%Q
     ∉ items (per_image ex_self_batch [square 200 10] [0.9%Q] (100, 100))) ∧
  ((100, 10, 100, 20, 0.9) : Box * Q)%Q
    ∈ items (remove_small_boxes (clipped [square 200 10] [0.9%Q] (100, 100))
                                (min_size ex_self)).
Proof.
  assert (Hin : ((100, 10, 100, 20, 0.9) : Box * Q)%Q
                  ∈ items (clipped [square 200 10] [0.9%Q] (100, 100))).
  { apply list_elem_of_here. }
  assert (Harea : (area (100, 10, 100, 20) == 0)%Q) by reflexivity.
  split; [exact Hin|]. split; [exact Harea|]. split.
  - destruct (clip_then_min_size ex_self_batch [square 200 10] [0.9%Q]
                (100, 100) (100, 10, 100, 20, 0.9)%Q Hin Harea)
      as (_ & _ & _ & _ & Hpos & _).
    apply Hpos. reflexivity.
  - destruct (clip_then_min_size ex_self [square 200 10] [0.9%Q]
                (100, 100) (100, 10, 100, 20, 0.9)%Q Hin Harea)
      as (_ & _ & _ & _ & _ & Hzero & _).
    destruct (Hzero ltac:(reflexivity)) as [_ Hkeep].
    apply (Hkeep (square 200 10)).
    + reflexivity.
    + vm_compute. discriminate.
    + vm_compute. discriminate.
Defined.

Lemma fpn_post_nms_top_n_default_witness :
  ∃ self,
    RPNPostProcessor_init ex_coder 4 2 0.7 0 None None false = Ok self ∧
    fpn_post_nms_top_n self = 2.
Proof.
  destruct (fpn_post_nms_top_n_default ex_coder 4 2 0.7 0 None false)
    as (self & Hinit & Hfpn & _).
  - lia.
  - exists self. split; [exact Hinit | exact Hfpn].
Defined.

(** ** Counterexamples *)

(** C7 as stated: in training mode an injected ground-truth box narrower
    than [min_size] is part of the output of [forward]. *)
Lemma small_ground_truth_in_output :
  ∃ out bl p,
    forward ex_sigmoid ex_self_batch ex_anchors
      [ex_objectness1; ex_objectness2] [ex_regression; ex_regression]
      (Some ex_targets) = Ok out ∧
    bl ∈ out ∧ p ∈ items bl ∧ (width p.1 < min_size ex_self_batch)%Q.
Proof.
  eexists _, _, ((1, 1, 3, 3)%Q, 1%Q). split; [vm_compute; reflexivity|].
  split; [apply list_elem_of_here|]. split.
  - do 3 apply list_elem_of_further. apply list_elem_of_here.
  - reflexivity.
Qed.

(** C8 as stated: with [min_size = 0] the zero-area box that clipping
    produces passes the size filter and is returned. *)
Lemma degenerate_box_survives_min_size :
  ∃ p out bl,
    p ∈ items (clipped [square 200 10] [0.9%Q] (100, 100)) ∧
    (area p.1 == 0)%Q ∧
    p ∈ items (remove_small_boxes (clipped [square 200 10] [0.9%Q] (100, 100))
                                  (min_size ex_self)) ∧
    forward_for_single_feature_map ex_sigmoid ex_self [ex_outside]
      ex_objectness_one ex_regression_one = Ok out ∧
    bl ∈ out ∧ p ∈ items bl.
Proof.
  exists ((100, 10, 100, 20, 0.9) : Box * Q)%Q. eexists _, _.
  split; [apply list_elem_of_here|]. split; [reflexivity|].
  split; [apply list_elem_of_here|].
  split; [vm_compute; reflexivity|].
  split; apply list_elem_of_here.
Qed.

(** With [min_size = 0] a zero-area box is not kept unconditionally: a box
    decoded inside out and squeezed onto the border keeps a negative
    side, and the size filter removes it. *)
Example inverted_box_removed_at_zero :
  let p : Box * Q := (100, 10, 100, 5, 0.9)%Q in
  p ∈ items (clipped [(150, 10, 120, 5)%Q] [0.9%Q] (100, 100)) ∧
  (area p.1 == 0)%Q ∧
  (p ∉ items (remove_small_boxes
                (clipped [(150, 10, 120, 5)%Q] [0.9%Q] (100, 100))
                (min_size ex_self))) ∧
  (p ∉ items (per_image ex_self [(150, 10, 120, 5)%Q] [0.9%Q] (100, 100))).
Proof.
  intros p. split; [apply list_elem_of_here|]. split; [reflexivity|].
  assert (Hh : ¬ (min_size ex_self <= height p.1)%Q).
  { vm_compute. intros H. by apply H. }
  split.
  - intros Hin%remove_small_boxes_items. tauto.
  - intros Hin%per_image_items. tauto.
Qed.

(** C9 as stated: a negative [min_size] and an [nms_thresh] above 1 are
    accepted by the constructor. *)
Lemma init_accepts_out_of_range :
  ∃ self,
    RPNPostProcessor_init ex_coder 4 2 2 (-1) None None true = Ok self ∧
    (min_size self < 0)%Q ∧ (1 < nms_thresh self)%Q.
Proof. eexists. split; [reflexivity|]. split; reflexivity. Qed.

(** * Further properties of the module *)

(** ** More auxiliary facts *)

Lemma lookup_fmap_seq {A} (l : list A) :
  (λ i, l !! i) <$> seq 0 (length l) = Some <$> l.
Proof.
  apply list_eq. intros i. rewrite !list_lookup_fmap.
  destruct (decide (i < length l)%nat) as [Hi|Hi].
  - rewrite lookup_seq_lt by done. simpl.
    destruct (lookup_lt_is_Some_2 l i Hi) as [x Hx]. by rewrite Hx.
  - rewrite lookup_seq_ge by lia. by rewrite lookup_ge_None_2 by lia.
Qed.

(** Gathering at distinct positions yields a sub-multiset. *)
Lemma gather_submseteq {A} (l : list A) (inds : list nat) (ps : list A) :
  NoDup inds → Forall2 (λ i p, l !! i = Some p) inds ps → ps ⊆+ l.
Proof.
  intros Hnd HF. destruct l as [|d l'].
  { destruct HF as [|i p ? ? Hi]; [done|]. by rewrite lookup_nil in Hi. }
  set (l := d :: l') in *.
  assert (Hps : Some <$> ps = (λ i, l !! i) <$> inds).
  { clear Hnd. induction HF as [|i p inds ps Hi _ IH]; [done|].
    by rewrite !fmap_cons, Hi, IH. }
  assert (Hsub : inds ⊆+ seq 0 (length l)).
  { apply NoDup_submseteq; [done|]. intros i Hi.
    apply list_elem_of_lookup in Hi as [j Hj].
    destruct (Forall2_lookup_l _ _ _ _ _ HF Hj) as (p & _ & Hp).
    apply lookup_lt_Some in Hp. apply elem_of_seq. lia. }
  apply (fmap_submseteq (λ i, l !! i)) in Hsub.
  rewrite <-Hps, lookup_fmap_seq in Hsub.
  apply (fmap_submseteq (default d)) in Hsub.
  rewrite <-!list_fmap_compose in Hsub.
  assert (Hid : ∀ xs : list A, default d ∘ Some <$> xs = xs).
  { intros xs. induction xs as [|x xs IH]; [done|]. by rewrite fmap_cons, IH. }
  by rewrite !Hid in Hsub.
Qed.

(** A successful [topk] had its [k] in range and obeys the contract. *)
Lemma topk_Ok_inv (k : Z) (xs : list Q) (vi : list Q * list nat) :
  topk k xs = Ok vi →
  0 ≤ k ≤ Z.of_nat (length xs) ∧ is_topk (Z.to_nat k) xs vi.
Proof.
  intros Hvi. assert (Hk : 0 ≤ k ≤ Z.of_nat (length xs)).
  { unfold topk in Hvi. destruct (decide _); [done|lia]. }
  split; [done|]. destruct (topk_Ok k xs Hk) as (vi' & Hvi' & Hspec).
  congruence.
Qed.

Lemma topk_negative (k : Z) (xs : list Q) : k < 0 → topk k xs = Raise RuntimeError.
Proof. intros Hk. unfold topk. by rewrite decide_True by lia. Qed.

(** The tuples of a transpose are read off the rows position by position. *)
Lemma zip_star_lookup {A} (xss : list (list A)) (i : nat) (t : list A) :
  zip_star xss !! i = Some t → Forall2 (λ xs x, xs !! i = Some x) xss t.
Proof.
  revert t. induction xss as [|xs xss IH]; intros t Ht.
  { simpl in Ht. by rewrite lookup_nil in Ht. }
  destruct xss as [|ys xss].
  - change (zip_star [xs]) with ((λ x, [x]) <$> xs) in Ht.
    apply list_lookup_fmap_Some in Ht as (x & -> & Hx).
    by repeat constructor.
  - change (zip_star (xs :: ys :: xss))
      with (zip_with cons xs (zip_star (ys :: xss))) in Ht.
    apply lookup_zip_with_Some in Ht as (x & t' & -> & Hx & Ht').
    constructor; [done | by apply IH].
Qed.

Lemma nms_greedy_length (fuel cap : nat) (t : Q) (l : list (Box * Q)) :
  (length (nms_greedy fuel cap t l) ≤ cap)%nat ∧
  (length (nms_greedy fuel cap t l) ≤ length l)%nat.
Proof.
  revert cap l. induction fuel as [|fuel IH]; intros [|cap] [|q l]; simpl;
    try lia.
  destruct (IH cap (filter (λ q0, Qle_bool (iou q.1 q0.1) t = true) l))
    as [Hc Hl].
  pose proof (length_filter (λ q0, Qle_bool (iou q.1 q0.1) t = true) l).
  lia.
Qed.

Lemma per_image_len (self : RPNPostProcessor) (proposal : list Box)
    (score : list Q) (im_shape : Z * Z) :
  (len (per_image self proposal score im_shape) ≤ length proposal)%nat ∧
  (len (per_image self proposal score im_shape) ≤ length score)%nat ∧
  (len (per_image self proposal score im_shape)
   ≤ Z.to_nat (post_nms_top_n self))%nat.
Proof.
  unfold per_image, boxlist_nms, remove_small_boxes, clipped, clip_to_image, len.
  simpl.
  set (cl := prod_map (clip_box im_shape) id <$> zip proposal score).
  set (fl := filter (λ p : Box * Q, big_enough (min_size self) p.1 = true) cl).
  destruct (nms_greedy_length (length fl) (Z.to_nat (post_nms_top_n self))
              (nms_thresh self) (sort_desc fl)) as [Hc Hl].
  assert (Hs : length (sort_desc fl) = length fl) by (by rewrite sort_desc_perm).
  assert (Hf : (length fl ≤ length cl)%nat) by apply length_filter.
  assert (Hz : length cl = (length proposal `min` length score)%nat).
  { unfold cl. by rewrite length_fmap, length_zip. }
  lia.
Qed.

Lemma select_over_all_levels_lookup (self : RPNPostProcessor)
    (boxlists out : list BoxList) (i : nat) (o : BoxList) :
  select_over_all_levels self boxlists = Ok out → out !! i = Some o →
  ∃ bl, boxlists !! i = Some bl ∧ im_size o = im_size bl ∧
        ∀ p, p ∈ items o → p ∈ items bl.
Proof.
  unfold select_over_all_levels.
  destruct (training self && fpn_post_nms_per_batch self).
  - intros H Ho.
    apply bind_Ok in H as (pool & _ & H). apply bind_Ok in H as (vi & _ & H).
    apply bind_Ok in H as (mask & _ & H). apply bind_Ok in H as (ms & _ & H).
    injection H as <-.
    apply lookup_zip_with_Some in Ho as (bl & m & -> & Hbl & _).
    exists bl. split; [done|]. split; [done|]. intros p Hp.
    eapply elem_of_sublist; [exact Hp | apply mask_select_sublist].
  - intros H Ho. apply traverse_Ok in H.
    destruct (Forall2_lookup_r _ _ _ _ _ H Ho) as (bl & Hbl & Hsel).
    exists bl. split; [done|].
    unfold select_image in Hsel. apply bind_Ok in Hsel as (vi & _ & Hsel).
    apply getitem_inds_Ok in Hsel as [Hsz Hsel]. split; [done|].
    intros p Hp. apply list_elem_of_lookup in Hp as [j Hj].
    destruct (Forall2_lookup_r _ _ _ _ _ Hsel Hj) as (k & _ & Hk).
    by eapply list_elem_of_lookup_2.
Qed.

Lemma select_eval_Ok (self : RPNPostProcessor) (boxlists : list BoxList) :
  training self = false ∨ fpn_post_nms_per_batch self = false →
  0 ≤ fpn_post_nms_top_n self →
  ∃ out,
    select_over_all_levels self boxlists = Ok out ∧
    Forall2 (λ bl o, Z.of_nat (len o)
                     = Z.min (fpn_post_nms_top_n self) (Z.of_nat (len bl)))
            boxlists out.
Proof.
  intros Hmode Hfpn. rewrite select_per_image_mode by done.
  destruct (traverse_total (select_image self) boxlists) as [out Hout].
  { apply Forall_forall. intros bl _.
    destruct (select_image_Ok self bl Hfpn) as (o & _ & Ho & _). eauto. }
  exists out. split; [done|]. apply traverse_Ok in Hout.
  eapply Forall2_impl; [exact Hout|]. intros bl o Ho.
  by apply select_image_len.
Qed.

Lemma clipped_items_zip (proposal : list Box) (score : list Q)
    (im_shape : Z * Z) (p : Box * Q) :
  p ∈ items (clipped proposal score im_shape) →
  ∃ b, (b, p.2) ∈ zip proposal score ∧ p.1 = clip_box im_shape b.
Proof.
  unfold clipped, clip_to_image; simpl.
  intros ([b v] & -> & Hbv)%list_elem_of_fmap. by exists b.
Qed.

Section Further.

Variable sigmoid : Q → Q.
Variable default_box_coder : BoxCoder.

(** X1 ([add_gt_proposals], lines 59 to 80).  An empty proposal list makes
    the call raise [IndexError], whatever the targets are.  Otherwise the
    call returns as many images as the shorter of the two lists has:
    image [i] of the result is image [i] of the proposals followed by the
    boxes of target [i] with objectness 1, and the images beyond the
    shorter list are dropped without an error. *)
Theorem add_gt_proposals_pairs_up (self : RPNPostProcessor)
    (proposals : list BoxList) (targets : list Boxes) :
  (proposals = [] →
   add_gt_proposals self proposals targets = Raise IndexError) ∧
  (proposals ≠ [] →
   ∃ out,
     add_gt_proposals self proposals targets = Ok out ∧
     length out = (length proposals `min` length targets)%nat ∧
     ∀ i o, out !! i = Some o →
       ∃ p t, proposals !! i = Some p ∧ targets !! i = Some t ∧
              im_size o = im_size p ∧
              items o = items p ++ ((λ b, (b, 1%Q)) <$> b_bbox t)).
Proof.
  split.
  - by intros ->.
  - intros Hne. exists (zip_with with_gt proposals targets).
    split; [by apply add_gt_proposals_Ok|]. split; [apply length_zip_with|].
    intros i o Ho. apply lookup_zip_with_Some in Ho as (p & t & -> & Hp & Ht).
    exists p, t. done.
Qed.

(** X2 ([select_over_all_levels], lines 187 to 214).  With a negative
    [fpn_post_nms_top_n] every call on a non-empty batch raises
    [RuntimeError], in both modes: [min] keeps the negative limit and
    [topk] rejects it. *)
Theorem select_negative_limit (self : RPNPostProcessor)
    (boxlists : list BoxList) :
  fpn_post_nms_top_n self < 0 → boxlists ≠ [] →
  select_over_all_levels self boxlists = Raise RuntimeError.
Proof.
  intros Hneg Hne. unfold select_over_all_levels.
  destruct boxlists as [|bl boxlists]; [done|].
  destruct (training self && fpn_post_nms_per_batch self).
  - simpl torch_cat. simpl bind. by rewrite topk_negative by lia.
  - simpl. unfold select_image. by rewrite topk_negative by lia.
Qed.

(** X3 ([select_over_all_levels], lines 187 to 214).  In either mode a
    call that returns keeps the images apart: it returns one proposal set
    per input image, with the image size of that image, and the proposals
    of output image [i] are a sub-multiset of the proposals of input
    image [i]; nothing is duplicated and nothing moves to another
    image. *)
Theorem select_keeps_images_apart (self : RPNPostProcessor)
    (boxlists out : list BoxList) :
  select_over_all_levels self boxlists = Ok out →
  Forall2 (λ bl o, im_size o = im_size bl ∧ items o ⊆+ items bl) boxlists out.
Proof.
  unfold select_over_all_levels.
  destruct (training self && fpn_post_nms_per_batch self).
  - intros H.
    apply bind_Ok in H as (pool & _ & H). apply bind_Ok in H as (vi & _ & H).
    apply bind_Ok in H as (mask & _ & H). apply bind_Ok in H as (ms & Hms & H).
    injection H as <-. unfold torch_split in Hms.
    destruct (decide _); [|done]. injection Hms as <-.
    apply Forall2_same_length_lookup. split.
    { rewrite length_zip_with, length_reshape, length_fmap. lia. }
    intros i bl o Hbl Ho.
    apply lookup_zip_with_Some in Ho as (bl' & m & -> & Hbl' & _).
    assert (bl' = bl) as -> by congruence. split; [done|].
    apply sublist_submseteq, mask_select_sublist.
  - intros H. apply traverse_Ok in H. eapply Forall2_impl; [exact H|].
    intros bl o Hsel. unfold select_image in Hsel.
    apply bind_Ok in Hsel as (vi & Hvi & Hsel).
    apply getitem_inds_Ok in Hsel as [Hsz Hsel]. split; [done|].
    apply topk_Ok_inv in Hvi as [_ (_ & _ & Hnd & _)].
    by eapply gather_submseteq.
Qed.

(** X4 ([forward], lines 149 to 185).  On an empty batch, that is with no
    image in [anchors], no level is processed.  The call then raises
    [RuntimeError] when there are several levels and the module selects
    per batch in training mode (the pooled score tensor cannot be built),
    raises [IndexError] when the module is in training mode and targets
    are given, and returns the empty list otherwise. *)
Theorem forward_empty_batch (self : RPNPostProcessor)
    (objectness box_regression : list Tensor4)
    (targets : option (list Boxes)) :
  forward sigmoid self [] objectness box_regression targets
  = if bool_decide (1 < length objectness)%nat
       && training self && fpn_post_nms_per_batch self
    then Raise RuntimeError
    else match training self, targets with
         | true, Some _ => Raise IndexError
         | _, _ => Ok []
         end.
Proof.
  unfold forward. simpl.
  destruct (decide (1 < length objectness)%nat) as [Hl|Hl].
  - rewrite bool_decide_eq_true_2 by done. unfold select_over_all_levels.
    simpl. destruct (training self), (fpn_post_nms_per_batch self); simpl;
      by destruct targets.
  - rewrite bool_decide_eq_false_2 by done. simpl.
    by destruct (training self), targets.
Qed.

(** X5 ([forward] with [select_over_all_levels]).  With more than one
    level and a non-negative [fpn_post_nms_top_n], what [forward] returns
    before any injection is capped by that limit: every image holds at
    most [fpn_post_nms_top_n] proposals in per-image mode, and all images
    together hold at most [fpn_post_nms_top_n] in per-batch mode. *)
Theorem forward_respects_fpn_limit (self : RPNPostProcessor)
    (anchors : list (list Boxes)) (objectness box_regression : list Tensor4)
    (out : list BoxList) :
  (1 < length objectness)%nat → 0 ≤ fpn_post_nms_top_n self →
  forward sigmoid self anchors objectness box_regression None = Ok out →
  if training self && fpn_post_nms_per_batch self
  then Z.of_nat (sum_list (len <$> out)) ≤ fpn_post_nms_top_n self
  else Forall (λ o, Z.of_nat (len o) ≤ fpn_post_nms_top_n self) out.
Proof.
  intros Hlev Hfpn H. unfold forward in H.
  apply bind_Ok in H as (sampled & _ & H).
  apply bind_Ok in H as (boxlists & _ & H).
  apply bind_Ok in H as (selected & Hsel & H).
  assert (out = selected) as -> by (destruct (training self); congruence).
  rewrite decide_True in Hsel by done.
  destruct (training self) eqn:Htr, (fpn_post_nms_per_batch self) eqn:Hpb;
    simpl.
  1:{ assert (Hne : boxlists ≠ []).
      { intros ->. unfold select_over_all_levels in Hsel.
        by rewrite Htr, Hpb in Hsel. }
      destruct (per_batch_mask self boxlists Htr Hpb Hfpn Hne)
        as (vi & mask & _ & Hlen & _ & Hcnt & Hsel').
      rewrite Hsel' in Hsel. injection Hsel as <-.
      rewrite getitem_mask_total by (by rewrite Hlen, length_pool).
      rewrite Hcnt. lia. }
  all: rewrite select_per_image_mode in Hsel by auto.
  all: apply traverse_Ok in Hsel; apply Forall_forall; intros o Ho.
  all: apply list_elem_of_lookup in Ho as [i Hi].
  all: destruct (Forall2_lookup_r _ _ _ _ _ Hsel Hi) as (bl & _ & Hbl).
  all: apply select_image_len in Hbl; [lia|done].
Qed.

(** X6 ([forward], lines 167 to 179).  Across levels the images stay
    apart: whenever [forward] returns without injection, every proposal
    of output image [i] is a proposal that
    [forward_for_single_feature_map] returned for image [i] at one of the
    levels. *)
Theorem forward_keeps_images_apart (self : RPNPostProcessor)
    (anchors : list (list Boxes)) (objectness box_regression : list Tensor4)
    (out : list BoxList) (i : nat) (o : BoxList) (p : Box * Q) :
  forward sigmoid self anchors objectness box_regression None = Ok out →
  out !! i = Some o → p ∈ items o →
  ∃ a ob b level bl,
    (a, ob, b) ∈ zip (zip (zip_star anchors) objectness) box_regression ∧
    forward_for_single_feature_map sigmoid self a ob b = Ok level ∧
    level !! i = Some bl ∧ p ∈ items bl.
Proof.
  unfold forward. intros H Ho Hp.
  apply bind_Ok in H as (sampled & Hsampled & H).
  apply bind_Ok in H as (boxlists & Hcat & H).
  apply bind_Ok in H as (selected & Hsel & H).
  assert (out = selected) as -> by (destruct (training self); congruence).
  assert (Hin : ∃ bl', boxlists !! i = Some bl' ∧ p ∈ items bl').
  { destruct (decide _).
    - destruct (select_over_all_levels_lookup _ _ _ _ _ Hsel Ho)
        as (bl' & Hbl' & _ & Hsub). eauto.
    - injection Hsel as ->. eauto. }
  destruct Hin as (bl' & Hbl' & Hp').
  apply traverse_Ok in Hcat.
  destruct (Forall2_lookup_r _ _ _ _ _ Hcat Hbl') as (t & Ht & Hcatt).
  apply cat_boxlist_Ok in Hcatt. rewrite Hcatt in Hp'.
  apply list_elem_of_join in Hp' as (its & Hp' & Hits).
  apply list_elem_of_fmap in Hits as (bl & -> & Hbl).
  apply zip_star_lookup in Ht.
  apply list_elem_of_lookup in Hbl as [l Hl].
  destruct (Forall2_lookup_r _ _ _ _ _ Ht Hl) as (level & Hlevel & Hli).
  apply traverse_Ok in Hsampled.
  destruct (Forall2_lookup_r _ _ _ _ _ Hsampled Hlevel)
    as ([[a ob] b] & Haob & Hf).
  exists a, ob, b, level, bl. split; [by eapply list_elem_of_lookup_2|done].
Qed.

(** X7 ([make_rpn_postprocessor], lines 217 to 239).  [is_train] chooses
    between the training and the testing limits and nothing else: the
    thresholds and the per-batch flag come from the configuration as they
    are, the limit of the final selection is always the configured one
    (never the fallback on [post_nms_top_n]), and the module returned is
    in training mode also for [is_train = False].  Once it is put in
    evaluation mode it selects per image, whatever the per-batch flag
    says. *)
Theorem make_rpn_postprocessor_limits (config : RPNConfig)
    (rpn_box_coder : option BoxCoder) (is_train : bool) :
  ∃ self,
    make_rpn_postprocessor default_box_coder config rpn_box_coder is_train
      = Ok self ∧
    pre_nms_top_n self
      = (if is_train then PRE_NMS_TOP_N_TRAIN config
         else PRE_NMS_TOP_N_TEST config) ∧
    post_nms_top_n self
      = (if is_train then POST_NMS_TOP_N_TRAIN config
         else POST_NMS_TOP_N_TEST config) ∧
    fpn_post_nms_top_n self
      = (if is_train then FPN_POST_NMS_TOP_N_TRAIN config
         else FPN_POST_NMS_TOP_N_TEST config) ∧
    nms_thresh self = NMS_THRESH config ∧ min_size self = MIN_SIZE config ∧
    fpn_post_nms_per_batch self = FPN_POST_NMS_PER_BATCH config ∧
    training self = true ∧
    (0 ≤ fpn_post_nms_top_n self →
     ∀ boxlists, ∃ out,
       select_over_all_levels (train false self) boxlists = Ok out ∧
       Forall2 (λ bl o, Z.of_nat (len o)
                        = Z.min (fpn_post_nms_top_n self) (Z.of_nat (len bl)))
               boxlists out).
Proof.
  unfold make_rpn_postprocessor, RPNPostProcessor_init.
  destruct is_train; simpl; eexists; (split; [done|]); repeat (split; [done|]).
  all: intros Hfpn boxlists.
  all: match goal with |- context [train false ?s] =>
         destruct (select_eval_Ok (train false s) boxlists) as (out & Ho & HF);
           [by left | done | exists out; by split]
       end.
Qed.

(** The top-k of one level and the gather of the deltas never fail on a
    score tensor with at least one image. *)
Lemma select_and_gather (self : RPNPostProcessor)
    (objectness box_regression : Tensor4) (N A H W : nat) :
  shape objectness = (N, A, H, W) → N ≠ 0%nat → 0 ≤ pre_nms_top_n self →
  ∃ scores tk greg,
    flat_objectness sigmoid objectness = Ok scores ∧
    select_top sigmoid self objectness = Ok tk ∧
    length tk = N ∧
    Forall2 (is_topk (Z.to_nat (Z.min (pre_nms_top_n self)
                                      (Z.of_nat (A * H * W))))) scores tk ∧
    (∀ n inds, tk.*2 !! n = Some inds →
       Forall (λ i, (i < A * H * W)%nat) inds) ∧
    gather_rows (flat_box_regression objectness box_regression) tk.*2 = Ok greg.
Proof.
  intros Hs HN Hpre.
  destruct (select_top_Ok sigmoid self objectness N A H W Hs HN Hpre)
    as (scores & tk & Hsc & Hlen & Hrows & Htk & Htop).
  destruct (flat_box_regression_shape objectness box_regression N A H W Hs)
    as [Hrlen Hrrows].
  assert (Hlentk : length tk = N).
  { rewrite <-Hlen. symmetry. by eapply Forall2_length. }
  assert (Hidx : ∀ n inds, tk.*2 !! n = Some inds →
            Forall (λ i, (i < A * H * W)%nat) inds).
  { intros n inds Hn. apply list_lookup_fmap_Some in Hn as (vi & -> & Hvi).
    destruct (Forall2_lookup_r _ _ _ _ _ Htop Hvi) as (row & Hrow & Hvi').
    apply is_topk_lt in Hvi'.
    by rewrite (Forall_lookup_1 _ _ _ _ Hrows Hrow) in Hvi'. }
  destruct (gather_rows_total (flat_box_regression objectness box_regression)
              tk.*2) as [greg Hgreg].
  { intros n inds Hn. pose proof (Hidx _ _ Hn) as Hlt.
    apply lookup_lt_Some in Hn as Hn'. rewrite length_fmap, Hlentk in Hn'.
    destruct (lookup_lt_is_Some_2
                (flat_box_regression objectness box_regression) n)
      as [row Hrow]; [by rewrite Hrlen|].
    exists row. split; [done|].
    by rewrite (Forall_lookup_1 _ _ _ _ Hrrows Hrow). }
  exists scores, tk, greg. done.
Qed.

(** X8 ([forward_for_single_feature_map], lines 97 to 120).  The call
    raises [RuntimeError] on a score tensor without images (the free
    dimension of [view(N, -1)] is ambiguous), on a negative
    [pre_nms_top_n] ([min] keeps it and [topk] rejects it) and on an
    empty list of anchors ([torch.cat] of nothing). *)
Theorem forward_for_single_feature_map_raises (self : RPNPostProcessor)
    (anchors : list Boxes) (objectness box_regression : Tensor4)
    (N A H W : nat) :
  shape objectness = (N, A, H, W) →
  N = 0%nat ∨ pre_nms_top_n self < 0 ∨ anchors = [] →
  forward_for_single_feature_map sigmoid self anchors objectness box_regression
  = Raise RuntimeError.
Proof.
  intros Hs Hbad. unfold forward_for_single_feature_map, decode_top.
  destruct (decide (N = 0%nat)) as [HN|HN].
  { unfold select_top, flat_objectness, view_N_flat. rewrite Hs.
    by rewrite decide_True. }
  destruct (decide (pre_nms_top_n self < 0)) as [Hneg|Hpre].
  { destruct (flat_objectness_Ok sigmoid objectness N A H W Hs HN)
      as (scores & Hsc & Hlen & _).
    unfold select_top. rewrite Hs, Hsc. simpl.
    destruct scores as [|row scores]; [simpl in Hlen; congruence|].
    simpl. by rewrite topk_negative by lia. }
  destruct Hbad as [?|[?| ->]]; [done|done|].
  destruct (select_and_gather self objectness box_regression N A H W Hs HN)
    as (scores & tk & greg & _ & Htk & _ & _ & _ & Hgreg); [lia|].
  rewrite Htk. simpl. by rewrite Hgreg.
Qed.

(** X9 ([forward_for_single_feature_map], lines 105 to 146).  Under the
    input contract of a level, with a positive [post_nms_top_n], every
    image of the result holds at most [min(pre_nms_top_n, A*H*W)] and at
    most [post_nms_top_n] proposals. *)
Theorem forward_for_single_feature_map_count (self : RPNPostProcessor)
    (anchors : list Boxes) (objectness box_regression : Tensor4)
    (N A H W : nat) :
  level_contract anchors objectness N A H W → 0 ≤ pre_nms_top_n self →
  0 < post_nms_top_n self →
  ∃ out,
    forward_for_single_feature_map sigmoid self anchors objectness
      box_regression = Ok out ∧
    Forall (λ bl,
              Z.of_nat (len bl)
                ≤ Z.min (pre_nms_top_n self) (Z.of_nat (A * H * W)) ∧
              Z.of_nat (len bl) ≤ post_nms_top_n self) out.
Proof.
  intros Hc Hpre Hpost.
  destruct (decode_top_Ok sigmoid self anchors objectness box_regression
              N A H W Hc Hpre)
    as (scores & tk & greg & ganc & Hsc & Htk & Htop & Hgreg & Hganc & Hlen & Hdec).
  eexists. unfold forward_for_single_feature_map. rewrite Hdec. simpl.
  split; [done|]. apply Forall_forall. intros bl Hbl.
  apply elem_of_zip_with in Hbl as ([prow srow] & sz & -> & Hps & _).
  apply elem_of_zip_r in Hps.
  apply list_elem_of_fmap in Hps as (vi & -> & Hvi).
  apply list_elem_of_lookup in Hvi as [n Hn].
  destruct (Forall2_lookup_r _ _ _ _ _ Htop Hn) as (row & _ & Hrow).
  apply is_topk_length_values in Hrow.
  destruct (per_image_len self prow vi.1 sz) as (_ & Hl & Hp). simpl. lia.
Qed.

(** X10 ([forward_for_single_feature_map], lines 105 to 146).  Under the
    input contract of a level the result has one proposal set per image,
    with the image size of that image's anchors, and every proposal of
    image [n] is traced back to one flat index [idx] of image [n]: its
    score is the squashed score at [idx] and its box is the clipped
    decoding of the delta at [idx] against the anchor at [idx], all three
    of image [n]. *)
Theorem forward_for_single_feature_map_provenance (self : RPNPostProcessor)
    (anchors : list Boxes) (objectness box_regression : Tensor4)
    (N A H W : nat) :
  level_contract anchors objectness N A H W → 0 ≤ pre_nms_top_n self →
  ∃ scores out,
    flat_objectness sigmoid objectness = Ok scores ∧
    forward_for_single_feature_map sigmoid self anchors objectness
      box_regression = Ok out ∧
    length out = N ∧
    ∀ n bl p, out !! n = Some bl → p ∈ items bl →
      ∃ a idx delta anchor,
        anchors !! n = Some a ∧ im_size bl = b_size a ∧
        b_bbox a !! idx = Some anchor ∧
        at2 (flat_box_regression objectness box_regression) n idx
          = Some delta ∧
        at2 scores n idx = Some p.2 ∧
        p.1 = clip_box (b_size a) (decode_row (box_coder self) delta anchor).
Proof.
  intros Hc Hpre.
  destruct (decode_top_Ok sigmoid self anchors objectness box_regression
              N A H W Hc Hpre)
    as (scores & tk & greg & ganc & Hsc & Htk & Htop & Hgreg & Hganc & Hlen & Hdec).
  exists scores. eexists. split; [done|].
  unfold forward_for_single_feature_map. rewrite Hdec. simpl.
  split; [done|].
  pose proof (gather_rows_lengths _ _ _ Hgreg) as Hl1.
  pose proof (gather_rows_lengths _ _ _ Hganc) as Hl2.
  apply gather_rows_Ok in Hgreg as [_ Hgreg].
  apply gather_rows_Ok in Hganc as [_ Hganc].
  split.
  { destruct Hc as (_ & _ & Hanc & _).
    rewrite !length_zip_with, !length_fmap, <-(Forall2_length _ _ _ Hl1),
      <-(Forall2_length _ _ _ Hl2), length_fmap. lia. }
  intros n bl p Hbl Hp.
  apply lookup_zip_with_Some in Hbl as ([prow srow] & sz & -> & Hps & Hsz).
  apply lookup_zip_with_Some in Hps as (prow' & srow' & [= <- <-] & Hprow & Hsrow).
  apply list_lookup_fmap_Some in Hsz as (a & -> & Ha).
  apply list_lookup_fmap_Some in Hsrow as (vi & -> & Hvi).
  apply lookup_zip_with_Some in Hprow as (gdrow & garow & -> & Hgd & Hga).
  assert (Hinds : tk.*2 !! n = Some vi.2).
  { apply list_lookup_fmap_Some. eauto. }
  destruct (Hgreg _ _ Hinds) as (drow & gdrow' & Hdrow & Hgd' & HFd).
  destruct (Hganc _ _ Hinds) as (arow & garow' & Harow & Hga' & HFa).
  assert (gdrow' = gdrow) as -> by congruence.
  assert (garow' = garow) as -> by congruence.
  apply list_lookup_fmap_Some in Harow as (a' & -> & Ha').
  assert (a' = a) as -> by congruence.
  destruct (Forall2_lookup_r _ _ _ _ _ Htop Hvi) as (sc & Hsc' & _ & HFs & _).
  simpl in Hp. apply per_image_items in Hp as [Hp _].
  apply clipped_items_zip in Hp as (b & Hb & Hp1).
  apply list_elem_of_lookup in Hb as [i Hi].
  apply lookup_zip_with_Some in Hi as (b' & v & [= <- <-] & Hb & Hv).
  apply lookup_zip_with_Some in Hb as (delta & anchor & -> & Hdelta & Hanchor).
  destruct (Forall2_lookup_r _ _ _ _ _ HFd Hdelta) as (idx & Hidx & Hd).
  destruct (Forall2_lookup_l _ _ _ _ _ HFa Hidx) as (anchor' & Hanchor' & Han).
  assert (anchor' = anchor) as -> by congruence.
  destruct (Forall2_lookup_l _ _ _ _ _ HFs Hidx) as (v' & Hv' & Hs).
  assert (v' = p.2) as -> by congruence.
  exists a, idx, delta, anchor. repeat split; try done.
  - apply at2_Some. eauto.
  - apply at2_Some. eauto.
Qed.

Lemma reshape_replicate_rows {X} (N M : nat) (l : list X) :
  length l = (N * M)%nat →
  Forall (λ r, length r = M) (reshape (replicate N M) l).
Proof.
  revert l. induction N as [|N IH]; intros l Hl; simpl; constructor.
  - rewrite length_take. simpl in Hl. lia.
  - apply IH. rewrite length_drop. simpl in Hl. lia.
Qed.

Lemma reshape_rows_Ok {X} (N M : nat) (l : list X) :
  N ≠ 0%nat → length l = (N * M)%nat →
  reshape_rows N l = Ok (reshape (replicate N M) l).
Proof.
  intros HN Hl. unfold reshape_rows. rewrite decide_False by done. rewrite Hl.
  rewrite decide_True by (rewrite Nat.mul_comm; by apply Nat.Div0.mod_mul).
  by rewrite (Nat.mul_comm N M), Nat.div_mul by done.
Qed.

(** Row [n], column [idx] of the regrouped tensor is entry [n * M + idx]
    of the flat one. *)
Lemma reshape_replicate_lookup {X} (N M : nat) (l : list X) (n idx : nat)
    (row : list X) (x : X) :
  length l = (N * M)%nat →
  reshape (replicate N M) l !! n = Some row → row !! idx = Some x →
  l !! (n * M + idx)%nat = Some x.
Proof.
  intros Hl Hrow Hx.
  pose proof (reshape_replicate_rows N M l Hl) as Hrows.
  assert (Hidx : (idx < M)%nat).
  { rewrite <-(Forall_lookup_1 _ _ _ _ Hrows Hrow). by eapply lookup_lt_Some. }
  rewrite <-(join_reshape (replicate N M) l) by (by rewrite sum_list_replicate).
  apply (join_lookup_Some_same_length' M); [done..|]. eauto.
Qed.

Lemma decode_reshape (bc : BoxCoder) (N k : nat) (idx : list (list nat))
    (greg : list (list Delta)) (ganc : list (list Box)) :
  N ≠ 0%nat → length idx = N → Forall (λ inds, length inds = k) idx →
  Forall2 (λ inds grow, length grow = length inds) idx greg →
  Forall2 (λ inds grow, length grow = length inds) idx ganc →
  reshape_rows N (decode bc (mjoin greg) (mjoin ganc))
  = Ok (zip_with (zip_with (decode_row bc)) greg ganc).
Proof.
  intros HN Hlen Hk Hlreg Hlanc.
  assert (Hsame : Forall2 (λ x y, length x = length y) greg ganc).
  { apply Forall2_same_length_lookup. split.
    - rewrite <-(Forall2_length _ _ _ Hlreg). by eapply Forall2_length.
    - intros n x y Hx Hy.
      destruct (Forall2_lookup_r _ _ _ _ _ Hlreg Hx) as (inds & Hinds & ->).
      destruct (Forall2_lookup_l _ _ _ _ _ Hlanc Hinds) as (y' & Hy' & <-).
      congruence. }
  unfold decode. rewrite zip_with_join by done.
  apply (reshape_rows_join N k); [|done|].
  - rewrite length_zip_with, <-(Forall2_length _ _ _ Hsame).
    rewrite <-(Forall2_length _ _ _ Hlreg). lia.
  - apply Forall_forall. intros row Hrow.
    apply list_elem_of_lookup in Hrow as [n Hn].
    apply lookup_zip_with_Some in Hn as (x & y & -> & Hx & Hy).
    destruct (Forall2_lookup_r _ _ _ _ _ Hlreg Hx) as (inds & Hinds & Hlx).
    destruct (Forall2_lookup_l _ _ _ _ _ Hlanc Hinds) as (y' & Hy' & Hly).
    assert (y' = y) as -> by congruence.
    rewrite length_zip_with, Hlx, Hly.
    rewrite (Forall_lookup_1 _ _ _ _ Hk Hinds). lia.
Qed.

(** X11 ([forward_for_single_feature_map], lines 119 to 123).  The
    anchors are addressed through their concatenation, which is cut into
    [N] rows of equal length [M]: the anchor used for image [n] at flat
    index [idx] is entry [n * M + idx] of the concatenated anchor boxes.
    Only the total number of anchor boxes is checked, not the number per
    image, so the call succeeds whenever the total is [N * M] with [M] at
    least [A*H*W]; it returns as many proposal sets as the shorter of the
    batch and the anchor list has. *)
Theorem anchors_addressed_through_concatenation (self : RPNPostProcessor)
    (anchors : list Boxes) (objectness box_regression : Tensor4)
    (N A H W M : nat) :
  shape objectness = (N, A, H, W) → N ≠ 0%nat → 0 ≤ pre_nms_top_n self →
  anchors ≠ [] →
  length (mjoin (b_bbox <$> anchors)) = (N * M)%nat → (A * H * W ≤ M)%nat →
  ∃ tk proposals out,
    select_top sigmoid self objectness = Ok tk ∧
    decode_top sigmoid self anchors objectness box_regression
      = Ok (proposals, tk.*1, b_size <$> anchors) ∧
    forward_for_single_feature_map sigmoid self anchors objectness
      box_regression = Ok out ∧
    length out = (N `min` length anchors)%nat ∧
    ∀ n i idx, at2 tk.*2 n i = Some idx →
      ∃ delta anchor,
        at2 (flat_box_regression objectness box_regression) n idx
          = Some delta ∧
        mjoin (b_bbox <$> anchors) !! (n * M + idx)%nat = Some anchor ∧
        at2 proposals n i
          = Some (decode_row (box_coder self) delta anchor).
Proof.
  intros Hs HN Hpre Hne Htotal HM.
  destruct (select_and_gather self objectness box_regression N A H W Hs HN Hpre)
    as (scores & tk & greg & Hsc & Htk & Hlen & Htop & Hidx & Hgreg).
  set (concat := mjoin (b_bbox <$> anchors)) in *.
  set (rows := reshape (replicate N M) concat).
  pose proof (reshape_replicate_rows N M concat Htotal) as Hrows.
  assert (Hlrows : length rows = N).
  { unfold rows. by rewrite length_reshape, length_replicate. }
  destruct (gather_rows_total rows tk.*2) as [ganc Hganc].
  { intros n inds Hn. pose proof (Hidx _ _ Hn) as Hlt.
    apply lookup_lt_Some in Hn as Hn'. rewrite length_fmap, Hlen in Hn'.
    destruct (lookup_lt_is_Some_2 rows n) as [row Hrow]; [by rewrite Hlrows|].
    exists row. split; [done|].
    rewrite (Forall_lookup_1 _ _ _ _ Hrows Hrow).
    eapply Forall_impl; [exact Hlt|]. intros i Hi; simpl in Hi. lia. }
  assert (Hdec : decode_top sigmoid self anchors objectness box_regression
                 = Ok (zip_with (zip_with (decode_row (box_coder self))) greg ganc,
                       tk.*1, b_size <$> anchors)).
  { unfold decode_top. rewrite Hs, Htk. simpl. rewrite Hgreg. simpl.
    assert (torch_cat (b_bbox <$> anchors) = Ok concat) as ->.
    { by destruct anchors. }
    simpl. rewrite (reshape_rows_Ok N M) by done. simpl.
    fold rows. rewrite Hganc. simpl.
    rewrite (decode_reshape _ N
               (Z.to_nat (Z.min (pre_nms_top_n self) (Z.of_nat (A * H * W))))
               tk.*2); [done|done|by rewrite length_fmap| |
               by eapply gather_rows_lengths|by eapply gather_rows_lengths].
    apply Forall_fmap, Forall_forall. intros vi Hvi.
    apply list_elem_of_lookup in Hvi as [n Hn].
    destruct (Forall2_lookup_r _ _ _ _ _ Htop Hn) as (row & _ & Hrow).
    apply Hrow. }
  exists tk, (zip_with (zip_with (decode_row (box_coder self))) greg ganc).
  eexists. split; [done|]. split; [done|].
  unfold forward_for_single_feature_map. rewrite Hdec. simpl.
  split; [done|]. split.
  { pose proof (gather_rows_lengths _ _ _ Hgreg) as Hl1.
    pose proof (gather_rows_lengths _ _ _ Hganc) as Hl2.
    rewrite !length_zip_with, !length_fmap, <-(Forall2_length _ _ _ Hl1),
      <-(Forall2_length _ _ _ Hl2), length_fmap. lia. }
  intros n i idx (inds & Hinds & Hi)%at2_Some.
  apply gather_rows_Ok in Hgreg as [_ Hgreg].
  apply gather_rows_Ok in Hganc as [_ Hganc].
  destruct (Hgreg _ _ Hinds) as (drow & gdrow & Hdrow & Hgdrow & HFd).
  destruct (Hganc _ _ Hinds) as (arow & garow & Harow & Hgarow & HFa).
  destruct (Forall2_lookup_l _ _ _ _ _ HFd Hi) as (delta & Hgd & Hd).
  destruct (Forall2_lookup_l _ _ _ _ _ HFa Hi) as (anchor & Hga & Ha).
  exists delta, anchor. split; [apply at2_Some; eauto|]. split.
  - by eapply reshape_replicate_lookup.
  - apply at2_Some. exists (zip_with (decode_row (box_coder self)) gdrow garow).
    split; apply lookup_zip_with_Some; eauto 10.
Qed.

Lemma count_true_le (mask : list bool) : (count_true mask ≤ length mask)%nat.
Proof. apply length_filter. Qed.

Lemma count_true_full (mask : list bool) :
  count_true mask = length mask → Forall (λ b, b = true) mask.
Proof.
  induction mask as [|b mask IH]; intros Hc; [constructor|].
  unfold count_true in *. rewrite filter_cons in Hc. destruct b.
  - rewrite decide_True in Hc by done. simpl in Hc.
    constructor; [done|]. apply IH. lia.
  - rewrite decide_False in Hc by done. simpl in Hc.
    pose proof (count_true_le mask) as Hle. unfold count_true in Hle. lia.
Qed.

Lemma mask_select_all {X} (l : list X) (mask : list bool) :
  length mask = length l → Forall (λ b, b = true) mask → mask_select l mask = l.
Proof.
  revert mask. induction l as [|x l IH]; intros [|b mask] Hlen Hall;
    simplify_eq/=; [done|].
  apply Forall_cons in Hall as [-> Hall]. rewrite mask_select_cons.
  f_equal. by apply IH.
Qed.

Lemma reshape_Forall2_length {X} (szs : list nat) (l : list X) :
  sum_list szs = length l → Forall2 (λ sz r, length r = sz) szs (reshape szs l).
Proof.
  revert l. induction szs as [|sz szs IH]; intros l Hl; simpl in *;
    constructor.
  - rewrite length_take. lia.
  - apply IH. rewrite length_drop. lia.
Qed.

Lemma getitem_mask_full (boxlists : list BoxList) (mask : list bool) :
  length mask = sum_list (len <$> boxlists) → Forall (λ b, b = true) mask →
  zip_with getitem_mask boxlists (reshape (len <$> boxlists) mask) = boxlists.
Proof.
  intros Hlen Hall.
  pose proof (reshape_Forall2_length (len <$> boxlists) mask (eq_sym Hlen)) as HF.
  pose proof (Forall_reshape _ _ (len <$> boxlists) Hall) as Hall'.
  apply Forall2_fmap_l in HF.
  revert HF Hall'. generalize (reshape (len <$> boxlists) mask).
  clear Hlen Hall. intros ms HF.
  induction HF as [|bl m boxlists ms Hm _ IH]; intros Hall'; simpl; [done|].
  apply Forall_cons in Hall' as [Hm' Hall']. rewrite (IH Hall'). f_equal.
  destruct bl as [sz its]. unfold getitem_mask; simpl. f_equal.
  by apply mask_select_all.
Qed.

(** X12 ([select_over_all_levels], lines 194 to 205).  The per-batch
    selection is idempotent: what it returns, given to it again, comes
    back unchanged, since no more than [fpn_post_nms_top_n] proposals are
    left to rank. *)
Theorem select_per_batch_idempotent (self : RPNPostProcessor)
    (boxlists out : list BoxList) :
  training self = true → fpn_post_nms_per_batch self = true →
  0 ≤ fpn_post_nms_top_n self →
  select_over_all_levels self boxlists = Ok out →
  select_over_all_levels self out = Ok out.
Proof.
  intros Htr Hpb Hfpn Hsel.
  assert (Hne : boxlists ≠ []).
  { intros ->. unfold select_over_all_levels in Hsel.
    by rewrite Htr, Hpb in Hsel. }
  destruct (per_batch_mask self boxlists Htr Hpb Hfpn Hne)
    as (vi & mask & _ & Hlen & _ & Hcnt & Hsel').
  rewrite Hsel' in Hsel. injection Hsel as Hout.
  assert (Htotal : Z.of_nat (sum_list (len <$> out)) ≤ fpn_post_nms_top_n self).
  { rewrite <-Hout, getitem_mask_total by (by rewrite Hlen, length_pool).
    rewrite Hcnt. lia. }
  assert (Hne' : out ≠ []).
  { intros Hnil. apply (f_equal length) in Hout.
    rewrite Hnil, length_zip_with, length_reshape, length_fmap in Hout.
    destruct boxlists; [done|]. simpl in Hout. lia. }
  destruct (per_batch_mask self out Htr Hpb Hfpn Hne')
    as (vi' & mask' & _ & Hlen' & _ & Hcnt' & Hsel'').
  rewrite Hsel''. f_equal. rewrite length_pool in Hlen', Hcnt'.
  apply getitem_mask_full; [done|].
  apply count_true_full. rewrite Hcnt', Hlen'. lia.
Qed.

End Further.

(** ** The further theorems at the inputs of the examples *)

Lemma add_gt_proposals_pairs_up_witness :
  add_gt_proposals ex_self [] ex_targets = Raise IndexError ∧
  ∃ out,
    add_gt_proposals ex_self ex_selected (take 1 ex_targets) = Ok out ∧
    length out = 1%nat.
Proof.
  split.
  - apply (add_gt_proposals_pairs_up ex_self [] ex_targets). reflexivity.
  - destruct (proj2 (add_gt_proposals_pairs_up ex_self ex_selected
                       (take 1 ex_targets)))
      as (out & Hout & Hlen & _); [discriminate|].
    exists out. split; [exact Hout | exact Hlen].
Defined.

Lemma select_negative_limit_witness :
  select_over_all_levels ex_self_negative ex_selected = Raise RuntimeError.
Proof.
  apply select_negative_limit; [simpl; lia | discriminate].
Defined.

Lemma select_keeps_images_apart_witness :
  ∃ out,
    select_over_all_levels ex_self_batch ex_selected = Ok out ∧
    Forall2 (λ bl o, im_size o = im_size bl ∧ items o ⊆+ items bl)
            ex_selected out.
Proof.
  eexists. split; [vm_compute; reflexivity|].
  apply (select_keeps_images_apart ex_self_batch). vm_compute. reflexivity.
Defined.

Lemma forward_respects_fpn_limit_witness :
  Forall (λ o, Z.of_nat (len o) ≤ 3) ex_selected.
Proof.
  apply (forward_respects_fpn_limit ex_sigmoid ex_self ex_anchors
           [ex_objectness1; ex_objectness2] [ex_regression; ex_regression]
           ex_selected).
  - simpl. lia.
  - simpl. lia.
  - vm_compute. reflexivity.
Defined.

Lemma forward_keeps_images_apart_witness :
  ∃ a ob b level bl,
    (a, ob, b) ∈ zip (zip (zip_star ex_anchors)
                          [ex_objectness1; ex_objectness2])
                     [ex_regression; ex_regression] ∧
    forward_for_single_feature_map ex_sigmoid ex_self a ob b = Ok level ∧
    level !! 0%nat = Some bl ∧ (square 0 50, 0.95%Q) ∈ items bl.
Proof.
  apply (forward_keeps_images_apart ex_sigmoid ex_self ex_anchors
           [ex_objectness1; ex_objectness2] [ex_regression; ex_regression]
           ex_selected 0
           (mkBoxList (100, 100)
              [(square 0 50, 0.95%Q); (square 0 0, 0.9%Q);
               (square 20 0, 0.8%Q)])).
  - vm_compute. reflexivity.
  - reflexivity.
  - apply list_elem_of_here.
Defined.

Lemma make_rpn_postprocessor_limits_witness :
  ∃ self out,
    make_rpn_postprocessor ex_coder ex_config None false = Ok self ∧
    training self = true ∧
    select_over_all_levels (train false self) ex_selected = Ok out ∧
    Forall2 (λ bl o, Z.of_nat (len o) = Z.min 2 (Z.of_nat (len bl)))
            ex_selected out.
Proof.
  destruct (make_rpn_postprocessor_limits ex_coder ex_config None false)
    as (self & Hmake & _ & _ & Hfpn & _ & _ & _ & Htr & Hsel).
  simpl in Hfpn. rewrite Hfpn in Hsel.
  destruct (Hsel ltac:(lia) ex_selected) as (out & Hout & HF).
  exists self, out. split; [exact Hmake|]. split; [exact Htr|].
  split; [exact Hout | exact HF].
Defined.

Lemma forward_for_single_feature_map_raises_witness :
  forward_for_single_feature_map ex_sigmoid ex_self []
    (tensor_of_lists 0 1 1 1 []) (tensor_of_lists 0 4 1 1 [])
  = Raise RuntimeError.
Proof.
  apply (forward_for_single_feature_map_raises ex_sigmoid ex_self []
           (tensor_of_lists 0 1 1 1 []) (tensor_of_lists 0 4 1 1 []) 0 1 1 1).
  - reflexivity.
  - left. reflexivity.
Defined.

Lemma forward_for_single_feature_map_count_witness :
  ∃ out,
    forward_for_single_feature_map ex_sigmoid ex_self
      [ex_anchors1; ex_anchors1] ex_objectness1 ex_regression = Ok out ∧
    Forall (λ bl, Z.of_nat (len bl) ≤ 2) out.
Proof.
  destruct (forward_for_single_feature_map_count ex_sigmoid ex_self
              [ex_anchors1; ex_anchors1] ex_objectness1 ex_regression 2 1 1 4)
    as (out & Hout & HF).
  - solve_contract.
  - simpl. lia.
  - simpl. lia.
  - exists out. split; [exact Hout|].
    eapply Forall_impl; [exact HF|]. intros bl [_ Hpost]. exact Hpost.
Defined.

Lemma forward_for_single_feature_map_provenance_witness :
  ∃ out,
    forward_for_single_feature_map ex_sigmoid ex_self
      [ex_anchors1; ex_anchors1] ex_objectness1 ex_regression = Ok out ∧
    length out = 2%nat.
Proof.
  destruct (forward_for_single_feature_map_provenance ex_sigmoid ex_self
              [ex_anchors1; ex_anchors1] ex_objectness1 ex_regression 2 1 1 4)
    as (scores & out & _ & Hout & Hlen & _).
  - solve_contract.
  - simpl. lia.
  - exists out. split; [exact Hout | exact Hlen].
Defined.

Lemma anchors_addressed_through_concatenation_witness :
  ∃ out,
    forward_for_single_feature_map ex_sigmoid ex_self ex_uneven
      ex_objectness1 ex_regression = Ok out ∧
    length out = 2%nat.
Proof.
  destruct (anchors_addressed_through_concatenation ex_sigmoid ex_self
              ex_uneven ex_objectness1 ex_regression 2 1 1 4 4)
    as (tk & proposals & out & _ & _ & Hout & Hlen & _).
  - reflexivity.
  - discriminate.
  - simpl. lia.
  - discriminate.
  - reflexivity.
  - simpl. lia.
  - exists out. split; [exact Hout | exact Hlen].
Defined.

Lemma select_per_batch_idempotent_witness :
  ∃ out,
    select_over_all_levels ex_self_batch ex_selected = Ok out ∧
    select_over_all_levels ex_self_batch out = Ok out.
Proof.
  eexists. split; [vm_compute; reflexivity|].
  apply (select_per_batch_idempotent ex_self_batch ex_selected).
  - reflexivity.
  - reflexivity.
  - simpl. lia.
  - vm_compute. reflexivity.
Defined.

(** The uneven anchor lists at work: the fourth proposal of the first
    image is decoded against the first anchor of the second image. *)
Example uneven_anchors_leak :
  match decode_top ex_sigmoid (train true ex_self) ex_uneven ex_objectness1
          ex_regression with
  | Ok (proposals, _, _) => at2 proposals 0 3
  | Raise _ => None
  end = Some (square 60 0).
Proof. vm_compute. reflexivity. Qed.
